(** * Deepfake Audio Detector API (app.py): a shallow embedding

    The FastAPI application of [app.py] is embedded as executable Rocq
    functions.

    - Numbers are IEEE-754 binary floating-point values, taken from the
      executable specification [SpecFloat] of the Standard Library:
      NumPy [float32] is the format [prec = 24], [emax = 128], the Python
      [float] is binary64 ([prec = 53], [emax = 1024]).  Arithmetic rounds to
      nearest, ties to even, and produces NaN and infinities as NumPy does
      (a division by zero is a warning there, not an exception).
    - A NumPy array is its shape together with its row-major buffer.
    - The libraries the program calls (librosa, the Keras model, the model
      loader) are parameters: functions that return a value or raise.
    - Handlers run in a small monad that records the calls to these
      libraries and the printed lines, and propagates exceptions, so that
      [try]/[except] is an operation of the monad.
    - A handler returns what the Python function returns: a [JSONResponse]
      with its status code, or a dictionary, which FastAPI sends with
      status 200 when it can be written as JSON. *)

From Stdlib Require Import ZArith List String Ascii Bool Lia PeanoNat.
From Stdlib Require Import Strings.Byte.
From Stdlib Require Import SpecFloat.
Import ListNotations.

(** ** IEEE-754 numbers *)

Module IEEE.

Local Open Scope Z_scope.

(** NumPy's [float32]. *)
Definition float32 : Type := spec_float.
(** Python's [float]. *)
Definition float64 : Type := spec_float.

Definition prec32 : Z := 24.
Definition emax32 : Z := 128.
Definition prec64 : Z := 53.
Definition emax64 : Z := 1024.

(** A value of the format: special, or finite with a canonical mantissa. *)
Definition is_float32 (x : float32) : bool := valid_binary prec32 emax32 x.
Definition is_float64 (x : float64) : bool := valid_binary prec64 emax64 x.

Definition f32_sub : float32 -> float32 -> float32 := SFsub prec32 emax32.
Definition f32_mul : float32 -> float32 -> float32 := SFmul prec32 emax32.
Definition f32_div : float32 -> float32 -> float32 := SFdiv prec32 emax32.
Definition f32_lt : float32 -> float32 -> bool := SFltb.
Definition f32_le : float32 -> float32 -> bool := SFleb.
Definition f32_ge (x y : float32) : bool := SFleb y x.
Definition f64_le : float64 -> float64 -> bool := SFleb.
Definition f64_lt : float64 -> float64 -> bool := SFltb.

Definition is_nan (x : spec_float) : bool :=
  match x with S754_nan => true | _ => false end.

(** The integer [n] as a float32 (Python's [1] and [100] next to a float32
    scalar). *)
Definition f32_of_Z (n : Z) : float32 := binary_normalize prec32 emax32 n 0 false.
Definition f64_of_Z (n : Z) : float64 := binary_normalize prec64 emax64 n 0 false.

(** The literal [0.5], which both formats hold exactly. *)
Definition f32_half : float32 := binary_normalize prec32 emax32 1 (-1) false.

Definition f32_zero : float32 := S754_zero false.

(** [float(x)] for a float32 scalar [x]: the same value in binary64. *)
Definition float_of_float32 (x : float32) : float64 :=
  match x with
  | S754_finite s m e => binary_round prec64 emax64 s m e
  | _ => x
  end.

(** Division of [a] by [b > 0] rounded to the nearest integer, ties to
    even. *)
Definition div_half_even (a b : Z) : Z :=
  let q := a / b in
  let r := a mod b in
  match 2 * r ?= b with
  | Lt => q
  | Gt => q + 1
  | Eq => if Z.even q then q else q + 1
  end.

(** Python's [round(x, ndigits)] on a float, for [ndigits >= 0]: the exact
    value of [x] is rounded, ties to even, to a multiple of [10^-ndigits],
    and that decimal is converted back to the nearest float.  NaN,
    infinities and zeros are returned unchanged, and so are the floats
    that are integers. *)
Definition py_round (x : float64) (ndigits : nat) : float64 :=
  match x with
  | S754_finite s m e =>
      if 0 <=? e then x
      else
        let scale := 10 ^ Z.of_nat ndigits in
        let n := div_half_even (Zpos m * scale) (2 ^ (- e)) in
        match n with
        | Zpos n' =>
            SFdiv prec64 emax64 (S754_finite s n' 0)
                  (S754_finite false (Z.to_pos scale) 0)
        | _ => S754_zero s
        end
  | _ => x
  end.

End IEEE.
Export IEEE.

(** ** NumPy arrays *)

Module Numpy.

(** An array: its shape and its elements in row-major order. *)
Record ndarray : Type := mk_ndarray {
  shape : list nat;
  data : list float32
}.

Definition size_of_shape (sh : list nat) : nat := fold_left Nat.mul sh 1%nat.

(** The buffer has as many elements as the shape says. *)
Definition well_shaped (a : ndarray) : Prop :=
  List.length (data a) = size_of_shape (shape a).

(** [-(-n // d)], the ceiling of [n / d]. *)
Definition ceil_div (n d : nat) : nat := ((n + d - 1) / d)%nat.

(** [np.resize(a, new_shape)]: the flattened array repeated as often as
    needed and cut to the new size; an empty array gives zeros. *)
Definition np_resize (a : ndarray) (new_shape : list nat) : ndarray :=
  let flat := data a in
  let new_size := size_of_shape new_shape in
  if (List.length flat =? 0)%nat || (new_size =? 0)%nat then
    mk_ndarray new_shape (repeat f32_zero new_size)
  else
    let repeats := ceil_div new_size (List.length flat) in
    mk_ndarray new_shape (firstn new_size (List.concat (repeat flat repeats))).

(** [np.minimum] and [np.maximum] on two scalars: a NaN wins. *)
Definition np_minimum (x y : float32) : float32 :=
  if f32_le x y || is_nan x then x else y.
Definition np_maximum (x y : float32) : float32 :=
  if f32_ge x y || is_nan x then x else y.

(** [a.min()] and [a.max()]: the reduction of the whole array; numpy raises
    [ValueError] on an empty one. *)
Definition np_min (a : ndarray) : option float32 :=
  match data a with
  | [] => None
  | x :: xs => Some (fold_left np_minimum xs x)
  end.
Definition np_max (a : ndarray) : option float32 :=
  match data a with
  | [] => None
  | x :: xs => Some (fold_left np_maximum xs x)
  end.

(** [a - c] and [a / c] for a scalar [c], element by element. *)
Definition np_sub_scalar (a : ndarray) (c : float32) : ndarray :=
  mk_ndarray (shape a) (map (fun x => f32_sub x c) (data a)).
Definition np_div_scalar (a : ndarray) (c : float32) : ndarray :=
  mk_ndarray (shape a) (map (fun x => f32_div x c) (data a)).

(** [a[np.newaxis, ..., np.newaxis]]: one axis in front, one at the end. *)
Definition add_batch_and_channel (a : ndarray) : ndarray :=
  mk_ndarray (1%nat :: shape a ++ [1%nat]) (data a).

End Numpy.
Export Numpy.

(** ** Effects: library calls, printed lines, exceptions *)

Module Effects.

Definition bytes : Type := list byte.

(** What a call into a library gives: a value, or an exception with its
    message ([str(e)]). *)
Inductive result (A : Type) : Type :=
| Ok (a : A)
| Raise (e : string).
Arguments Ok {A} a.
Arguments Raise {A} e.

(** What a run leaves behind besides its value. *)
Inductive event : Type :=
| Print (line : string)
| LoadModel (path : string)
| LibrosaLoad (file_bytes : bytes)
| MelSpectrogram (y : ndarray) (sr : Z) (n_mels : nat)
| PowerToDb (S : ndarray)
| Predict (x : ndarray).

(** A computation: the events in order, and a value or an exception. *)
Definition M (A : Type) : Type := list event * result A.

Definition ret {A} (a : A) : M A := ([], Ok a).

Definition bind {A B} (m : M A) (k : A -> M B) : M B :=
  match m with
  | (t, Ok a) => let (t', r) := k a in (t ++ t', r)
  | (t, Raise e) => (t, Raise e)
  end.

(** [try: body except Exception as e: handler e]. *)
Definition try_except {A} (body : M A) (handler : string -> M A) : M A :=
  match body with
  | (t, Ok a) => (t, Ok a)
  | (t, Raise e) => let (t', r) := handler e in (t ++ t', r)
  end.

Definition raise {A} (e : string) : M A := ([], Raise e).
Definition print (line : string) : M unit := ([Print line], Ok tt).
(** A library call that is recorded as [ev]. *)
Definition call {A} (ev : event) (r : result A) : M A := ([ev], r).

Definition trace {A} (m : M A) : list event := fst m.
Definition outcome {A} (m : M A) : result A := snd m.

Definition is_predict (ev : event) : bool :=
  match ev with Predict _ => true | _ => false end.
Definition is_library_call (ev : event) : bool :=
  match ev with Print _ => false | _ => true end.

(** The arrays the model's forward pass was run on, in order. *)
Definition predict_inputs (t : list event) : list ndarray :=
  flat_map (fun ev => match ev with Predict x => [x] | _ => [] end) t.

End Effects.
Export Effects.

Declare Scope monad_scope.
Delimit Scope monad_scope with monad.
Notation "x <- c1 ;; c2" := (bind c1 (fun x => c2))
  (at level 61, c1 at next level, right associativity) : monad_scope.
Notation "' pat <- c1 ;; c2" := (bind c1 (fun x => match x with pat => c2 end))
  (at level 61, pat pattern, c1 at next level, right associativity) : monad_scope.
Notation "c1 ;; c2" := (bind c1 (fun _ => c2))
  (at level 61, right associativity) : monad_scope.

(** ** The libraries the application calls *)

Module Libraries.

(** The three librosa functions of the feature extractor.
    [power_to_db] stands for [librosa.power_to_db(S, ref=np.max)]. *)
Record Librosa : Type := {
  load : bytes -> result (ndarray * Z);
  melspectrogram : ndarray -> Z -> nat -> result ndarray;
  power_to_db : ndarray -> result ndarray
}.

(** A loaded Keras model: [model.predict] gives a batch of output vectors,
    one row for each element of the batch. *)
Definition Model : Type := ndarray -> result (list (list float32)).

(** [tensorflow.keras.models.load_model]. *)
Definition Loader : Type := string -> result Model.

(** Indexing a sequence at [0]; an empty one raises [IndexError]. *)
Definition index0 {A} (l : list A) : result A :=
  match l with
  | x :: _ => Ok x
  | [] => Raise "index 0 is out of bounds for axis 0 with size 0"
  end.

End Libraries.
Export Libraries.

(** ** The application *)

Module App.

Local Open Scope monad_scope.
Local Open Scope string_scope.

(** JSON of the responses: every body is a flat object of strings and
    numbers. *)
Inductive json_value : Type :=
| JString (s : string)
| JNumber (x : float64).
Definition json_object : Type := list (string * json_value).

(** What a handler returns: [JSONResponse(status_code=..., content=...)],
    or a dictionary. *)
Inductive handler_result : Type :=
| JSONResponse (status_code : Z) (content : json_object)
| Dict (fields : json_object).

(** A value that [json.dumps(..., allow_nan=False)], which FastAPI uses to
    write a body, accepts: NaN and the infinities are refused. *)
Definition json_compliant (v : json_value) : bool :=
  match v with
  | JString _ => true
  | JNumber (S754_zero _) | JNumber (S754_finite _ _ _) => true
  | JNumber _ => false
  end.

(** The status FastAPI sends: a returned dictionary goes out with 200,
    unless it holds a number that JSON cannot represent; writing it then
    raises after the handler has returned, and the framework answers
    with 500. *)
Definition status_of (r : handler_result) : Z :=
  match r with
  | JSONResponse c _ => c
  | Dict d =>
      if forallb (fun field => json_compliant (snd field)) d then 200%Z
      else 500%Z
  end.
(** The content the handler returned. *)
Definition body_of (r : handler_result) : json_object :=
  match r with
  | JSONResponse _ c => c
  | Dict d => d
  end.

(** The uploaded file of a multipart request. *)
Record UploadFile : Type := {
  filename : string;
  content_type : string;
  contents : bytes
}.
(** [await file.read()]. *)
Definition read (file : UploadFile) : bytes := contents file.

(** The module-level state: the global [model], [None] when loading
    failed. *)
Record server : Type := { model : option Model }.

(** Lines 41-47: the model is loaded once, when the module is imported. *)
Definition startup (load_model : Loader) : M server :=
  print "🔁 Loading model..." ;;
  try_except
    (m <- call (LoadModel "Promodel.keras") (load_model "Promodel.keras") ;;
     print "✅ Model loaded successfully!" ;;
     ret {| model := Some m |})
    (fun e =>
       print ("❌ Error loading model: " ++ e) ;;
       ret {| model := None |}).

Section Handlers.

Variable librosa : Librosa.

(** [a.min()] inside the [try]: the [ValueError] of an empty array. *)
Definition reduce (r : option float32) : M float32 :=
  match r with
  | Some x => ret x
  | None =>
      raise "zero-size array to reduction operation which has no identity"
  end.

(** Line 66: [(S_DB - S_DB.min()) / (S_DB.max() - S_DB.min())]. *)
Definition min_max_normalize (S_DB : ndarray) : M ndarray :=
  lo <- reduce (np_min S_DB) ;;
  let num := np_sub_scalar S_DB lo in
  hi <- reduce (np_max S_DB) ;;
  lo' <- reduce (np_min S_DB) ;;
  ret (np_div_scalar num (f32_sub hi lo')).

(** Lines 53-70. *)
Definition audio_to_spectrogram (file_bytes : bytes) : M (option ndarray) :=
  try_except
    ('(y, sr) <- call (LibrosaLoad file_bytes) (load librosa file_bytes) ;;
     S <- call (MelSpectrogram y sr 128) (melspectrogram librosa y sr 128) ;;
     S_DB <- call (PowerToDb S) (power_to_db librosa S) ;;
     let S_DB := np_resize S_DB [128; 128]%nat in
     S_DB <- min_max_normalize S_DB ;;
     ret (Some S_DB))
    (fun e =>
       print ("⚠️ Error processing file: " ++ e) ;;
       ret None).

(** Lines 97-102: the label and the confidence, in float32 as NumPy
    computes them on the float32 scalar [pred]. *)
Definition interpret (pred : float32) : string * float32 :=
  if f32_lt pred f32_half then
    ("HUMAN", f32_mul (f32_sub (f32_of_Z 1) pred) (f32_of_Z 100))
  else
    ("AI-GENERATED", f32_mul pred (f32_of_Z 100)).

Definition error_content (msg : string) : json_object :=
  [("error", JString msg)].

(** Lines 76-111. *)
Definition predict_audio (srv : server) (file : UploadFile) : M handler_result :=
  match model srv with
  | None => ret (JSONResponse 500 (error_content "Model not loaded on server."))
  | Some mdl =>
      try_except
        (let file_bytes := read file in
         spectrogram <- audio_to_spectrogram file_bytes ;;
         match spectrogram with
         | None =>
             ret (JSONResponse 400 (error_content "Could not process audio file."))
         | Some spectrogram =>
             let spectrogram := add_batch_and_channel spectrogram in
             out <- call (Predict spectrogram) (mdl spectrogram) ;;
             row <- ([], index0 out) ;;
             pred <- ([], index0 row) ;;
             let '(label, confidence) := interpret pred in
             ret (Dict [("prediction", JString label);
                        ("confidence",
                         JNumber (py_round (float_of_float32 confidence) 2))])
         end)
        (fun e =>
           print ("❌ Prediction error: " ++ e) ;;
           ret (JSONResponse 500 (error_content e)))
  end.

(** Lines 117-119. *)
Definition root (_ : unit) : M handler_result :=
  ret (Dict [("message", JString "🎧 Deepfake Audio Detector API is running!")]).

(** An HTTP request as the routes see it. *)
Record request : Type := {
  method : string;
  path : string;
  query : string;
  headers : list (string * string);
  upload : option UploadFile
}.

(** The two routes registered on [app]: [@app.post("/predict/")] and
    [@app.get("/")].  [None] stands for a request that no handler of the
    application receives (the framework answers it). *)
Definition app (srv : server) (req : request) : option (M handler_result) :=
  if (method req =? "POST") && (path req =? "/predict/") then
    match upload req with
    | Some file => Some (predict_audio srv file)
    | None => None
    end
  else if (method req =? "GET") && (path req =? "/") then
    Some (root tt)
  else None.

End Handlers.

End App.
Export App.

(** ** Vocabulary of the statements *)

Module Spec.

(** The array a successful run of the extractor returns, from the decibel
    spectrogram [S_DB] that [power_to_db] gave and its extrema. *)
Definition normalized (S_DB : ndarray) (lo hi : float32) : ndarray :=
  np_div_scalar (np_sub_scalar (np_resize S_DB [128; 128]%nat) lo) (f32_sub hi lo).

(** The confidence the endpoint returns for the model output [pred]:
    [round(float(confidence), 2)]. *)
Definition returned_confidence (pred : float32) : float64 :=
  py_round (float_of_float32 (snd (interpret pred))) 2.

(** The body of a successful prediction. *)
Definition prediction_body (label : string) (confidence : float64) : json_object :=
  [("prediction"%string, JString label); ("confidence"%string, JNumber confidence)].

Definition no_model_response : handler_result :=
  JSONResponse 500 [("error"%string, JString "Model not loaded on server.")].
Definition bad_audio_response : handler_result :=
  JSONResponse 400 [("error"%string, JString "Could not process audio file.")].
Definition root_response : handler_result :=
  Dict [("message"%string, JString "🎧 Deepfake Audio Detector API is running!")].

(** [max(a, b)] of Python: [b] when [b > a], else [a]. *)
Definition py_max (a b : float32) : float32 := if f32_lt a b then b else a.

(** [round(max(p, 1 - p) * 100, 2)], with the float32 arithmetic of the
    endpoint. *)
Definition confidence_formula (p : float32) : float64 :=
  py_round (float_of_float32
              (f32_mul (py_max p (f32_sub (f32_of_Z 1) p)) (f32_of_Z 100))) 2.

(** The glossary's confidence: the distance of [p] from the threshold 0.5,
    as a percentage, rounded like the returned value. *)
Definition distance_from_threshold_percent (p : float32) : float64 :=
  py_round (float_of_float32
              (f32_mul (SFabs (f32_sub p f32_half)) (f32_of_Z 100))) 2.

(** An entry that lies in the closed interval [0, 1]. *)
Definition in_unit_interval (x : float32) : bool :=
  f32_le f32_zero x && f32_le x (f32_of_Z 1).

Local Open Scope Z_scope.

(** The float32 number 1. *)
Definition f32_one : float32 := S754_finite false 8388608 (-23).

(** The float32 numbers from 0.5 to 1, by mantissa and exponent. *)
Definition in_half_one (x : float32) : Prop :=
  x = f32_one \/
  exists m : positive, x = S754_finite false m (-24) /\ 2 ^ 23 <= Zpos m < 2 ^ 24.

(** The float32 numbers from 50 to 100, by mantissa and exponent. *)
Definition in_50_100 (x : float32) : Prop :=
  exists (m : positive) (e : Z),
    x = S754_finite false m e /\
    ((e = -18 /\ 13107200 <= Zpos m < 2 ^ 24) \/
     (e = -17 /\ 2 ^ 23 <= Zpos m <= 13107200)).

(** The float nearest to [n / 100], the last step of [py_round _ 2]. *)
Definition hundredths (s : bool) (n : positive) : float64 :=
  SFdiv prec64 emax64 (S754_finite s n 0) (S754_finite false 100 0).

(** A float from 50 to 100. *)
Definition percent_ok (c : float64) : bool :=
  is_float64 c && f64_le (f64_of_Z 50) c && f64_le c (f64_of_Z 100) &&
  negb (f64_lt c (f64_of_Z 50)).

(** The value of a finite float32 counted in units of 2^-149, the spacing
    of the smallest float32 numbers: an integer, since no float32 has an
    exponent below -149. *)
Definition units (x : float32) : Z :=
  match x with
  | S754_finite s m e => cond_Zopp s (Zpos m * 2 ^ (e + 149))
  | _ => 0
  end.

(** [|p - 0.5|] in these units; 0.5 is [2^148] of them. *)
Definition distance_from_threshold (p : float32) : Z := Z.abs (units p - 2 ^ 148).

(** The number whose percentage is returned: [1 - p] below the threshold,
    [p] from the threshold on. *)
Definition far_side (p : float32) : float32 :=
  if f32_lt p f32_half then f32_sub (f32_of_Z 1) p else p.

End Spec.
Export Spec.

(** ** Sample libraries, models and requests *)

Module Samples.

Local Open Scope string_scope.

Definition wav_header : bytes := [x52; x49; x46; x46]%byte.
Definition text_bytes : bytes := [x68; x69]%byte.

Definition clip : UploadFile :=
  {| filename := "clip.wav"; content_type := "audio/wav"; contents := wav_header |}.
(** The same bytes under another name and type. *)
Definition clip_renamed : UploadFile :=
  {| filename := "copy.bin"; content_type := "application/octet-stream";
     contents := wav_header |}.
Definition not_audio : UploadFile :=
  {| filename := "notes.txt"; content_type := "text/plain"; contents := text_bytes |}.

(** A decibel spectrogram with two frames that alternates between -80 dB
    and 0 dB. *)
Definition two_level_db : ndarray :=
  mk_ndarray [128; 2]%nat
    (List.concat (repeat [f32_of_Z (-80); f32_of_Z 0] 128)).

(** librosa on a file it decodes to a signal with such a spectrogram; the
    file [text_bytes] is not audio and [load] raises on it. *)
Definition tone_librosa : Librosa :=
  {| load := fun b =>
       match b with
       | [x68; x69]%byte => Raise "Format not recognised."
       | _ => Ok (mk_ndarray [4]%nat (repeat f32_half 4), 16000%Z)
       end;
     melspectrogram := fun _ _ n => Ok (mk_ndarray [n; 2]%nat (repeat f32_half (n * 2)));
     power_to_db := fun _ => Ok two_level_db |}.

(** librosa on digital silence: every sample is 0, the mel spectrogram is 0
    everywhere, and [power_to_db(S, ref=np.max)], which is
    [10*log10(max(amin, S)) - 10*log10(max(amin, max S))], is 0 dB in every
    cell. *)
Definition silence_db (frames : nat) : ndarray :=
  mk_ndarray [128; frames]%nat (repeat f32_zero (128 * frames)).
Definition silence_librosa : Librosa :=
  {| load := fun _ => Ok (mk_ndarray [8]%nat (repeat f32_zero 8), 16000%Z);
     melspectrogram := fun _ _ n => Ok (mk_ndarray [n; 1]%nat (repeat f32_zero (n * 1)));
     power_to_db := fun _ => Ok (silence_db 1) |}.

(** A model with a single sigmoid unit that answers [p] on every input. *)
Definition constant_model (p : float32) : Model := fun _ => Ok [[p]].

(** The float32 values 0.25 and 0.75. *)
Definition f32_quarter : float32 := binary_normalize prec32 emax32 1 (-2) false.
Definition f32_three_quarters : float32 := binary_normalize prec32 emax32 3 (-2) false.

Definition missing_file_loader : Loader :=
  fun _ => Raise "File not found: Promodel.keras".
Definition working_loader : Loader :=
  fun _ => Ok (constant_model f32_quarter).

Definition loaded : server := {| model := Some (constant_model f32_quarter) |}.
Definition not_loaded : server := {| model := None |}.

Definition get_root : request :=
  {| method := "GET"; path := "/"; query := "verbose=1";
     headers := [("accept", "*/*")]; upload := None |}.

End Samples.

(** ** Further vocabulary: the pipeline and its failures *)

Module Pipeline.

Local Open Scope string_scope.

(** A number of the format, as opposed to NaN and the infinities. *)
Definition is_finite (x : spec_float) : bool :=
  match x with
  | S754_zero _ | S754_finite _ _ _ => true
  | _ => false
  end.

(** The three librosa calls of lines 56-60 in sequence, without the trace:
    the decibel spectrogram, or the first exception. *)
Definition librosa_pipeline (librosa : Librosa) (file_bytes : bytes) : result ndarray :=
  match load librosa file_bytes with
  | Raise e => Raise e
  | Ok (y, sr) =>
      match melspectrogram librosa y sr 128 with
      | Raise e => Raise e
      | Ok mel => power_to_db librosa mel
      end
  end.

(** Lines 63-66 on a decibel spectrogram whose resized copy has the
    extrema [lo] and [hi]: one entry of the result. *)
Definition normalize_entry (lo hi x : float32) : float32 :=
  f32_div (f32_sub x lo) (f32_sub hi lo).

(** The four kinds of result of the prediction endpoint. *)
Inductive endpoint_result : handler_result -> Prop :=
| NoModel : endpoint_result no_model_response
| BadAudio : endpoint_result bad_audio_response
| Failed (e : string) : endpoint_result (JSONResponse 500 [("error", JString e)])
| Human (p : float32) :
    endpoint_result (Dict (prediction_body "HUMAN" (returned_confidence p)))
| AiGenerated (p : float32) :
    endpoint_result (Dict (prediction_body "AI-GENERATED" (returned_confidence p))).

(** A model whose forward pass raises, and one that returns an empty
    batch. *)
Definition failing_model : Model :=
  fun _ => Raise "Input 0 of layer is incompatible with the layer".
Definition empty_model : Model := fun _ => Ok [].

Definition post_predict (file : UploadFile) : request :=
  {| method := "POST"; path := "/predict/"; query := "";
     headers := []; upload := Some file |}.

End Pipeline.
Export Pipeline.

(** ** Vocabulary of rounding *)

Module Rounding.

Local Open Scope Z_scope.

(** A finite number of the float32 format. *)
Definition finite32 (x : float32) : bool := is_float32 x && is_finite x.

(** Rounding to nearest, ties to even, of a positive integer number of
    units of 2^-149 to the float32 grid: numbers with more than 24 bits
    lose the low ones. *)
Definition rnd32 (N : Z) : Z :=
  let n := Z.max 0 (Z.log2 N + 1 - 24) in
  div_half_even N (2 ^ n) * 2 ^ n.

(** What rounding [N > 0] units to float32 gives: the float32 of
    [rnd32 N] units, or the positive infinity when that is too large. *)
Definition rounds_to (N : Z) (r : float32) : Prop :=
  (rnd32 N < 2 ^ 277 /\
   exists m e, r = S754_finite false m e /\ is_float32 r = true /\
               units r = rnd32 N) \/
  (2 ^ 277 <= rnd32 N /\ r = S754_infinity false).

(** The last step of rounding: the mantissa [u] at exponent [e] brought
    to canonical form. *)
Definition finish32 (s : bool) (u e : Z) : float32 :=
  let '(mrs, e') := shr_fexp prec32 emax32 u e loc_Exact in
  match shr_m mrs with
  | Z0 => S754_zero s
  | Zpos m => if e' <=? emax32 - prec32 then S754_finite s m e' else S754_infinity s
  | Zneg _ => S754_nan
  end.

End Rounding.
Export Rounding.


(** * Properties *)

(** ** Concrete runs *)

Section Runs.

Local Open Scope Z_scope.

(** [round(0.125, 2) == 0.12] and [round(0.375, 2) == 0.38]: ties go to the
    even hundredth. *)
Example py_round_ties_to_even :
  py_round (S754_finite false 4503599627370496 (-55)) 2 =
    S754_finite false 8646911284551352 (-56) /\
  py_round (S754_finite false 6755399441055744 (-54)) 2 =
    S754_finite false 6845471433603154 (-54).
Proof. split; reflexivity. Qed.

(** [round(2.675, 2) == 2.67]: the float nearest to 2.675 is below it. *)
Example py_round_2_675 :
  py_round (S754_finite false 6023564501608038 (-51)) 2 =
    S754_finite false 6012305502539612 (-51).
Proof. reflexivity. Qed.

(** [round(-0.001, 2) == -0.0]. *)
Example py_round_negative_zero :
  py_round (S754_finite true 4611686018427388 (-62)) 2 = S754_zero true.
Proof. reflexivity. Qed.

(** The float32 nearest to 0.9876543 gives "AI-GENERATED" with 98.77. *)
Example interpret_0_9876543 :
  fst (interpret (S754_finite false 16570090 (-24))) = "AI-GENERATED"%string /\
  returned_confidence (S754_finite false 16570090 (-24)) =
    S754_finite false 6950320862427873 (-46).
Proof. split; reflexivity. Qed.

(** A model output of 0.25 on a decodable clip: "HUMAN" with 75.0, after
    the three librosa calls and one forward pass. *)
Example predict_clip :
  outcome (predict_audio Samples.tone_librosa Samples.loaded Samples.clip) =
    Ok (Dict (prediction_body "HUMAN" (S754_finite false 5277655813324800 (-46)))) /\
  map is_library_call
      (trace (predict_audio Samples.tone_librosa Samples.loaded Samples.clip)) =
    [true; true; true; true] /\
  List.length (predict_inputs
                 (trace (predict_audio Samples.tone_librosa Samples.loaded
                           Samples.clip))) = 1%nat.
Proof. vm_compute. repeat split; reflexivity. Qed.

(** The two-level spectrogram is normalized to the values 0 and 1. *)
Example normalize_two_levels :
  match outcome (audio_to_spectrogram Samples.tone_librosa Samples.wav_header) with
  | Ok (Some A) => firstn 4 (data A) = [f32_zero; f32_of_Z 1; f32_zero; f32_of_Z 1]
  | _ => False
  end.
Proof. vm_compute. reflexivity. Qed.

(** Startup with a model file that loads. *)
Example startup_loads_model :
  exists m, startup Samples.working_loader =
    ([Print "🔁 Loading model..."; LoadModel "Promodel.keras";
      Print "✅ Model loaded successfully!"], Ok {| model := Some m |}).
Proof. eexists. reflexivity. Qed.

End Runs.

(** ** NumPy arrays: sizes *)

Section ArrayFacts.

Lemma length_concat_repeat (A : Type) (l : list A) (k : nat) :
  List.length (List.concat (repeat l k)) = (k * List.length l)%nat.
Proof.
  induction k as [|k IH]; simpl.
  - reflexivity.
  - rewrite length_app, IH. reflexivity.
Qed.

Lemma in_firstn (A : Type) (n : nat) (l : list A) (x : A) :
  In x (firstn n l) -> In x l.
Proof.
  intros H. rewrite <- (firstn_skipn n l). apply in_or_app. left. exact H.
Qed.

Lemma ceil_div_covers (n d : nat) : (0 < d)%nat -> (n <= ceil_div n d * d)%nat.
Proof.
  intros Hd. unfold ceil_div.
  pose proof (Nat.div_mod_eq (n + d - 1) d) as E.
  pose proof (Nat.mod_upper_bound (n + d - 1) d) as U.
  nia.
Qed.

(** [np.resize] gives exactly the shape asked for, with a full buffer. *)
Lemma np_resize_shape (a : ndarray) (sh : list nat) :
  shape (np_resize a sh) = sh.
Proof.
  unfold np_resize. destruct (_ || _); reflexivity.
Qed.

Lemma np_resize_length (a : ndarray) (sh : list nat) :
  List.length (data (np_resize a sh)) = size_of_shape sh.
Proof.
  unfold np_resize.
  destruct ((List.length (data a) =? 0)%nat || (size_of_shape sh =? 0)%nat) eqn:E; simpl.
  - apply repeat_length.
  - apply orb_false_elim in E. destruct E as [E1 _].
    apply Nat.eqb_neq in E1.
    rewrite length_firstn, length_concat_repeat.
    apply Nat.min_l, ceil_div_covers. lia.
Qed.

Lemma np_min_resize (a : ndarray) (sh : list nat) :
  size_of_shape sh <> 0%nat -> exists lo, np_min (np_resize a sh) = Some lo.
Proof.
  intros H. pose proof (np_resize_length a sh) as L.
  unfold np_min. destruct (data (np_resize a sh)) as [|x xs].
  - simpl in L. congruence.
  - eauto.
Qed.

Lemma np_max_resize (a : ndarray) (sh : list nat) :
  size_of_shape sh <> 0%nat -> exists hi, np_max (np_resize a sh) = Some hi.
Proof.
  intros H. pose proof (np_resize_length a sh) as L.
  unfold np_max. destruct (data (np_resize a sh)) as [|x xs].
  - simpl in L. congruence.
  - eauto.
Qed.

Lemma size_128_128 : size_of_shape [128; 128]%nat = (128 * 128)%nat.
Proof. reflexivity. Qed.

Lemma size_128_128_pos : size_of_shape [128; 128]%nat <> 0%nat.
Proof. rewrite size_128_128. discriminate. Qed.

End ArrayFacts.

(** ** The feature extractor, step by step *)

Section ExtractorFacts.

Variable librosa : Librosa.

(** A run that returns an array went through the three librosa calls, and
    the array is the resized, normalized decibel spectrogram. *)
Lemma audio_to_spectrogram_some (b : bytes) (t : list event) (A : ndarray) :
  audio_to_spectrogram librosa b = (t, Ok (Some A)) ->
  exists y sr S S_DB lo hi,
    load librosa b = Ok (y, sr) /\
    melspectrogram librosa y sr 128 = Ok S /\
    power_to_db librosa S = Ok S_DB /\
    np_min (np_resize S_DB [128; 128]%nat) = Some lo /\
    np_max (np_resize S_DB [128; 128]%nat) = Some hi /\
    A = normalized S_DB lo hi /\
    t = [LibrosaLoad b; MelSpectrogram y sr 128; PowerToDb S].
Proof.
  unfold audio_to_spectrogram, min_max_normalize, call.
  destruct (load librosa b) as [[y sr]|e] eqn:E1; simpl; [|discriminate].
  destruct (melspectrogram librosa y sr 128) as [S|e] eqn:E2; simpl; [|discriminate].
  destruct (power_to_db librosa S) as [S_DB|e] eqn:E3; simpl; [|discriminate].
  destruct (np_min_resize S_DB [128; 128]%nat size_128_128_pos) as [lo Hlo].
  destruct (np_max_resize S_DB [128; 128]%nat size_128_128_pos) as [hi Hhi].
  rewrite Hlo, Hhi. simpl. intros H. inversion H; subst.
  exists y, sr, S, S_DB, lo, hi. repeat split; auto.
Qed.

(** The array of a successful run has the shape and the size that
    [np.resize] gave it: the normalization works element by element. *)
Lemma audio_to_spectrogram_shape (b : bytes) (t : list event) (A : ndarray) :
  audio_to_spectrogram librosa b = (t, Ok (Some A)) ->
  shape A = [128; 128]%nat /\ List.length (data A) = (128 * 128)%nat.
Proof.
  intros H.
  destruct (audio_to_spectrogram_some b t A H)
    as (y & sr & S & S_DB & lo & hi & _ & _ & _ & _ & _ & -> & _).
  unfold normalized, np_div_scalar, np_sub_scalar. simpl shape. simpl data.
  rewrite np_resize_shape, !length_map, np_resize_length.
  split; reflexivity.
Qed.

(** The extractor catches every exception: it always returns. *)
Lemma audio_to_spectrogram_returns (b : bytes) :
  exists t r, audio_to_spectrogram librosa b = (t, Ok r).
Proof.
  unfold audio_to_spectrogram, min_max_normalize, call.
  destruct (load librosa b) as [[y sr]|e] eqn:E1; simpl; [|eauto].
  destruct (melspectrogram librosa y sr 128) as [S|e] eqn:E2; simpl; [|eauto].
  destruct (power_to_db librosa S) as [S_DB|e] eqn:E3; simpl; [|eauto].
  destruct (np_min_resize S_DB [128; 128]%nat size_128_128_pos) as [lo Hlo].
  destruct (np_max_resize S_DB [128; 128]%nat size_128_128_pos) as [hi Hhi].
  rewrite Hlo, Hhi. simpl. eauto.
Qed.

(** The extractor never runs the model. *)
Lemma audio_to_spectrogram_no_predict (b : bytes) :
  predict_inputs (trace (audio_to_spectrogram librosa b)) = [].
Proof.
  unfold audio_to_spectrogram, min_max_normalize, call.
  destruct (load librosa b) as [[y sr]|e] eqn:E1; simpl; [|reflexivity].
  destruct (melspectrogram librosa y sr 128) as [S|e] eqn:E2; simpl; [|reflexivity].
  destruct (power_to_db librosa S) as [S_DB|e] eqn:E3; simpl; [|reflexivity].
  destruct (np_min_resize S_DB [128; 128]%nat size_128_128_pos) as [lo Hlo].
  destruct (np_max_resize S_DB [128; 128]%nat size_128_128_pos) as [hi Hhi].
  rewrite Hlo, Hhi. reflexivity.
Qed.

End ExtractorFacts.

(** ** IEEE arithmetic: rounding to float32 and to float *)

Section FloatFacts.

Local Open Scope Z_scope.

Lemma iter_pos_nat (A : Type) (f : A -> A) (p : positive) (x : A) :
  iter_pos f p x = Nat.iter (Pos.to_nat p) f x.
Proof.
  revert x. induction p as [p IH|p IH|]; intros x; cbn [iter_pos].
  - rewrite !IH, Pos2Nat.inj_xI. 
    replace (2 * Pos.to_nat p)%nat with (Pos.to_nat p + Pos.to_nat p)%nat by lia.
    rewrite Nat.iter_succ_r, Nat.iter_add. reflexivity.
  - rewrite !IH, Pos2Nat.inj_xO.
    replace (2 * Pos.to_nat p)%nat with (Pos.to_nat p + Pos.to_nat p)%nat by lia.
    rewrite Nat.iter_add. reflexivity.
  - reflexivity.
Qed.

Lemma shr_1_m (mrs : shr_record) :
  0 <= shr_m mrs -> shr_m (shr_1 mrs) = shr_m mrs / 2.
Proof.
  destruct mrs as [m r s]. simpl. intros H.
  destruct m as [|[p|p|]|p]; cbn [shr_1 shr_m]; try reflexivity.
  - apply Z.div_unique with 1; lia.
  - apply Z.div_unique with 0; lia.
  - lia.
Qed.

Lemma shr_iter_m (n : nat) (mrs : shr_record) :
  0 <= shr_m mrs ->
  shr_m (Nat.iter n shr_1 mrs) = shr_m mrs / 2 ^ Z.of_nat n.
Proof.
  intros H. induction n as [|n IH].
  - simpl. rewrite Z.div_1_r. reflexivity.
  - rewrite Nat.iter_succ, shr_1_m.
    + rewrite IH, Nat2Z.inj_succ, Z.pow_succ_r by lia.
      rewrite Z.div_div by lia. f_equal. lia.
    + rewrite IH. apply Z.div_pos; lia.
Qed.

Lemma shr_m_shr (m : Z) (e : Z) (p : positive) :
  0 <= m ->
  shr (Build_shr_record m false false) e (Zpos p) =
    (iter_pos shr_1 p (Build_shr_record m false false), e + Zpos p) /\
  shr_m (iter_pos shr_1 p (Build_shr_record m false false)) = m / 2 ^ Zpos p.
Proof.
  intros H. split; [reflexivity|].
  rewrite iter_pos_nat, shr_iter_m by exact H.
  simpl. rewrite positive_nat_Z. reflexivity.
Qed.

Lemma digits2_log2 (m : positive) : Zpos (digits2_pos m) = Z.log2 (Zpos m) + 1.
Proof.
  assert (E : forall p, digits2_pos p = Pos.size p).
  { induction p; simpl; congruence. }
  destruct m; simpl; rewrite ?E; lia.
Qed.

Lemma digits2_pos_unique (m : positive) (d : Z) :
  2 ^ (d - 1) <= Zpos m < 2 ^ d -> Zpos (digits2_pos m) = d.
Proof.
  intros H. rewrite digits2_log2.
  assert (0 <= d - 1).
  { destruct (Z_lt_le_dec (d - 1) 0) as [L|L]; [|exact L].
    exfalso. assert (2 ^ d <= 1).
    { destruct (Z.eq_dec d 0) as [->|]; [simpl; lia|].
      rewrite Z.pow_neg_r by lia. lia. }
    lia. }
  rewrite (Z.log2_unique (Zpos m) (d - 1)); try lia.
  replace (Z.succ (d - 1)) with d by lia. exact H.
Qed.

Lemma digits2_pos_bounds (m : positive) :
  2 ^ (Zpos (digits2_pos m) - 1) <= Zpos m < 2 ^ Zpos (digits2_pos m).
Proof.
  rewrite digits2_log2.
  replace (Z.log2 (Zpos m) + 1 - 1) with (Z.log2 (Zpos m)) by lia.
  replace (Z.log2 (Zpos m) + 1) with (Z.succ (Z.log2 (Zpos m))) by lia.
  apply Z.log2_spec. lia.
Qed.

Lemma iter_xO (m d : positive) : Zpos (Pos.iter xO m d) = Zpos m * 2 ^ Zpos d.
Proof.
  rewrite <- Z.shiftl_mul_pow2 by lia. unfold Z.shiftl.
  apply (Pos.iter_swap_gen _ _ Zpos xO (Z.mul 2)). reflexivity.
Qed.

Lemma fexp32_normal (x : Z) : -125 <= x -> fexp prec32 emax32 x = x - 24.
Proof. unfold fexp, emin, prec32, emax32. lia. Qed.

Lemma round_aux_noshift (prec emax : Z) (s : bool) (m : positive) (e : Z) :
  fexp prec emax (Zpos (digits2_pos m) + e) = e ->
  e <= emax - prec ->
  binary_round_aux prec emax s (Zpos m) e loc_Exact = S754_finite s m e.
Proof.
  intros Hf He. unfold binary_round_aux, shr_fexp.
  cbn [Zdigits2 shr_record_of_loc]. rewrite Hf, Z.sub_diag.
  cbn [shr shr_m loc_of_shr_record round_nearest_even Zdigits2 shr_record_of_loc].
  rewrite Hf, Z.sub_diag. cbn [shr shr_m].
  apply Z.leb_le in He. rewrite He. reflexivity.
Qed.

Lemma round_nearest_even_cases (mrs : shr_record) :
  round_nearest_even (shr_m mrs) (loc_of_shr_record mrs) = shr_m mrs \/
  round_nearest_even (shr_m mrs) (loc_of_shr_record mrs) = shr_m mrs + 1.
Proof.
  destruct mrs as [m [|] [|]]; simpl; auto.
  destruct (Z.even m); auto.
Qed.

(** Rounding to float32 of [m * 2^e] when the result is a normal number. *)
Lemma round_aux_shift32 (s : bool) (m : positive) (e n : Z) :
  n = Zpos (digits2_pos m) - 24 ->
  0 < n ->
  -149 <= e + n ->
  e + n + 1 <= 104 ->
  exists u : Z,
    (u = Zpos m / 2 ^ n \/ u = Zpos m / 2 ^ n + 1) /\
    2 ^ 23 <= Zpos m / 2 ^ n < 2 ^ 24 /\
    binary_round_aux prec32 emax32 s (Zpos m) e loc_Exact =
      if u <? 2 ^ 24 then S754_finite s (Z.to_pos u) (e + n)
      else S754_finite s (Z.to_pos (2 ^ 23)) (e + n + 1).
Proof.
  intros Hn Hpos Hlo Hhi.
  pose proof (digits2_pos_bounds m) as Hd.
  assert (Hq : 2 ^ 23 <= Zpos m / 2 ^ n < 2 ^ 24).
  { replace (Zpos (digits2_pos m)) with (n + 24) in Hd by lia.
    replace (n + 24 - 1) with (23 + n) in Hd by lia.
    rewrite !Z.pow_add_r in Hd by lia.
    assert (0 < 2 ^ n) by (apply Z.pow_pos_nonneg; lia).
    split.
    - apply Z.div_le_lower_bound; lia.
    - apply Z.div_lt_upper_bound; lia. }
  unfold binary_round_aux, shr_fexp at 1.
  cbn [Zdigits2 shr_record_of_loc].
  rewrite fexp32_normal by lia.
  replace (Zpos (digits2_pos m) + e - 24 - e) with n by lia.
  destruct n as [|pn|pn]; try lia.
  destruct (shr_m_shr (Zpos m) e pn (Pos2Z.is_nonneg m)) as [E1 E2].
  rewrite E1.
  set (mrs := iter_pos shr_1 pn {| shr_m := Zpos m; shr_r := false; shr_s := false |}) in *.
  exists (round_nearest_even (shr_m mrs) (loc_of_shr_record mrs)).
  split; [rewrite <- E2; apply round_nearest_even_cases|].
  split; [exact Hq|].
  pose proof (round_nearest_even_cases mrs) as Hu.
  set (u := round_nearest_even (shr_m mrs) (loc_of_shr_record mrs)) in *.
  rewrite E2 in Hu.
  assert (Hu' : 2 ^ 23 <= u <= 2 ^ 24) by lia.
  destruct u as [|pu|pu]; try lia.
  unfold shr_fexp. cbn [Zdigits2 shr_record_of_loc].
  destruct (Z.ltb_spec (Zpos pu) (2 ^ 24)) as [L|L].
  - rewrite (digits2_pos_unique pu 24) by (simpl Z.sub; lia).
    rewrite fexp32_normal by lia.
    replace (24 + (e + Zpos pn) - 24 - (e + Zpos pn)) with 0 by lia.
    cbn [shr shr_m].
    replace (e + Zpos pn <=? emax32 - prec32) with true
      by (symmetry; apply Z.leb_le; unfold emax32, prec32; lia).
    reflexivity.
  - assert (Zpos pu = 2 ^ 24) as Epu by lia.
    rewrite (digits2_pos_unique pu 25) by (simpl Z.sub; lia).
    rewrite fexp32_normal by lia.
    replace (25 + (e + Zpos pn) - 24 - (e + Zpos pn)) with 1 by lia.
    rewrite Epu. cbn.
    replace (e + Zpos pn + 1 <=? 104) with true
      by (symmetry; apply Z.leb_le; lia).
    reflexivity.
Qed.

Lemma f32_of_Z_1 : f32_of_Z 1 = f32_one. Proof. reflexivity. Qed.
Lemma f32_of_Z_100 : f32_of_Z 100 = S754_finite false 13107200 (-17). Proof. reflexivity. Qed.
Lemma f32_half_eq : f32_half = S754_finite false 8388608 (-24). Proof. reflexivity. Qed.

Lemma valid32_finite (s : bool) (m : positive) (e : Z) :
  is_float32 (S754_finite s m e) = true ->
  Z.max (Zpos (digits2_pos m) + e - 24) (-149) = e /\ e <= 104.
Proof.
  unfold is_float32, valid_binary, bounded, canonical_mantissa, fexp, emin,
    prec32, emax32.
  intros H. apply andb_true_iff in H. destruct H as [H1 H2].
  apply Z.eqb_eq in H1. apply Z.leb_le in H2.
  change (3 - 128 - 24) with (-149) in H1. change (128 - 24) with 104 in H2.
  auto.
Qed.

Lemma valid32_intro (s : bool) (m : positive) (e : Z) :
  Z.max (Zpos (digits2_pos m) + e - 24) (-149) = e -> e <= 104 ->
  is_float32 (S754_finite s m e) = true.
Proof.
  intros H1 H2.
  unfold is_float32, valid_binary, bounded, canonical_mantissa, fexp, emin,
    prec32, emax32.
  apply andb_true_iff. split.
  - apply Z.eqb_eq. exact H1.
  - apply Z.leb_le. exact H2.
Qed.

Lemma SFcompare_finite_pos (m1 : positive) (e1 : Z) (m2 : positive) (e2 : Z) :
  SFcompare (S754_finite false m1 e1) (S754_finite false m2 e2) =
  Some (match e1 ?= e2 with
        | Lt => Lt
        | Gt => Gt
        | Eq => (Zpos m1 ?= Zpos m2)
        end).
Proof. reflexivity. Qed.

Lemma SFleb_finite_pos (m1 : positive) (e1 : Z) (m2 : positive) (e2 : Z) :
  SFleb (S754_finite false m1 e1) (S754_finite false m2 e2) = true <->
  e1 < e2 \/ (e1 = e2 /\ Zpos m1 <= Zpos m2).
Proof.
  unfold SFleb. rewrite SFcompare_finite_pos.
  destruct (Z.compare_spec e1 e2) as [E|E|E].
  - destruct (Z.compare_spec (Zpos m1) (Zpos m2)); split; intros; try lia; auto; discriminate.
  - split; intros; auto; lia.
  - split; intros; try discriminate; lia.
Qed.

Lemma SFltb_finite_pos (m1 : positive) (e1 : Z) (m2 : positive) (e2 : Z) :
  SFltb (S754_finite false m1 e1) (S754_finite false m2 e2) = true <->
  e1 < e2 \/ (e1 = e2 /\ Zpos m1 < Zpos m2).
Proof.
  unfold SFltb. rewrite SFcompare_finite_pos.
  destruct (Z.compare_spec e1 e2) as [E|E|E].
  - destruct (Z.compare_spec (Zpos m1) (Zpos m2)); split; intros; try lia; auto; discriminate.
  - split; intros; auto; lia.
  - split; intros; try discriminate; lia.
Qed.

Lemma in_half_one_intro (u : Z) :
  2 ^ 23 <= u <= 2 ^ 24 ->
  in_half_one (if u <? 2 ^ 24 then S754_finite false (Z.to_pos u) (-24)
               else S754_finite false (Z.to_pos (2 ^ 23)) (-24 + 1)).
Proof.
  intros H. destruct (Z.ltb_spec u (2 ^ 24)).
  - right. exists (Z.to_pos u). split; [reflexivity|]. rewrite Z2Pos.id; lia.
  - left. reflexivity.
Qed.

Lemma in_half_one_char (x : float32) :
  is_float32 x = true -> f32_le f32_half x = true -> f32_le x (f32_of_Z 1) = true ->
  in_half_one x.
Proof.
  rewrite f32_of_Z_1, f32_half_eq. unfold f32_le, f32_one.
  destruct x as [s|s| |s m e]; try (destruct s; discriminate); try discriminate.
  destruct s; [discriminate|].
  intros Hv H1 H2.
  apply valid32_finite in Hv. apply SFleb_finite_pos in H1, H2.
  pose proof (digits2_pos_bounds m) as Hd.
  assert (e = -24 \/ e = -23) as [->| ->] by lia.
  - right. exists m. split; [reflexivity|].
    replace (Zpos (digits2_pos m)) with 24 in Hd by lia. simpl Z.sub in Hd. lia.
  - left. unfold f32_one. f_equal.
    replace (Zpos (digits2_pos m)) with 24 in Hd by lia. simpl Z.sub in Hd.
    assert (Zpos m = 8388608) by lia. congruence.
Qed.

Lemma binary_round_shift32 (s : bool) (m : positive) (e n : Z) :
  n = Zpos (digits2_pos m) - 24 ->
  0 < n ->
  -149 <= e + n ->
  e + n + 1 <= 104 ->
  exists u : Z,
    (u = Zpos m / 2 ^ n \/ u = Zpos m / 2 ^ n + 1) /\
    2 ^ 23 <= Zpos m / 2 ^ n < 2 ^ 24 /\
    binary_round prec32 emax32 s m e =
      if u <? 2 ^ 24 then S754_finite s (Z.to_pos u) (e + n)
      else S754_finite s (Z.to_pos (2 ^ 23)) (e + n + 1).
Proof.
  intros Hn Hpos Hlo Hhi.
  unfold binary_round, shl_align.
  rewrite fexp32_normal by lia.
  replace (Zpos (digits2_pos m) + e - 24 - e) with n by lia.
  destruct n as [|pn|pn]; try lia.
  apply round_aux_shift32; assumption.
Qed.

(** [1 - p] for a float32 [p] with [0 < p < 0.5] is the rounding of the
    integer [2^(-e) - m] at the exponent of [p]. *)
Lemma sub_one_as_round (m : positive) (e : Z) :
  is_float32 (S754_finite false m e) = true ->
  e <= -25 ->
  exists D : positive,
    Zpos D = 2 ^ (- e) - Zpos m /\
    Zpos (digits2_pos D) = - e /\
    f32_sub (f32_of_Z 1) (S754_finite false m e) =
      binary_round prec32 emax32 false D e.
Proof.
  intros Hv He. apply valid32_finite in Hv.
  pose proof (digits2_pos_bounds m) as Hd.
  assert (Hm : Zpos m < 2 ^ 24).
  { eapply Z.lt_le_trans; [apply Hd|]. apply Z.pow_le_mono_r; lia. }
  rewrite f32_of_Z_1. unfold f32_sub, f32_one, SFsub.
  rewrite Z.min_r by lia.
  unfold shl_align at 2. rewrite Z.sub_diag.
  unfold shl_align.
  destruct (e - -23) as [|d|d] eqn:Ed; try lia.
  cbn [fst cond_Zopp].
  rewrite iter_xO.
  assert (E2 : 8388608 * 2 ^ Zpos d = 2 ^ (- e)).
  { change 8388608 with (2 ^ 23). rewrite <- Z.pow_add_r by lia. f_equal. lia. }
  rewrite E2.
  assert (Hbig : 2 ^ 25 <= 2 ^ (- e)) by (apply Z.pow_le_mono_r; lia).
  assert (Hhalf : 2 ^ (- e) = 2 * 2 ^ (- e - 1)).
  { rewrite <- Z.pow_succ_r by lia. f_equal. lia. }
  destruct (2 ^ (- e) - Zpos m) as [|D|D] eqn:ED; try lia.
  exists D. split; [reflexivity|]. split; [|reflexivity].
  apply digits2_pos_unique. lia.
Qed.

(** [1 - p] for a float32 [p] with [0 < p < 0.5] lies between 0.5 and 1. *)
Lemma sub_one_small (m : positive) (e : Z) :
  is_float32 (S754_finite false m e) = true ->
  e <= -25 ->
  in_half_one (f32_sub (f32_of_Z 1) (S754_finite false m e)).
Proof.
  intros Hv He.
  destruct (sub_one_as_round m e Hv He) as (D & HD & Hdig & ->).
  destruct (binary_round_shift32 false D e (- e - 24)) as (u & Hu & Hq & ->); try lia.
  replace (e + (- e - 24)) with (-24) by lia.
  apply in_half_one_intro. lia.
Qed.

Lemma mul_100_range (r : float32) :
  in_half_one r -> in_50_100 (f32_mul r (f32_of_Z 100)).
Proof.
  intros [->|(m & -> & Hm)].
  - exists 13107200%positive, (-17). split; [reflexivity|]. right. simpl. lia.
  - rewrite f32_of_Z_100. unfold f32_mul, SFmul. cbn [xorb].
    change (-24 + -17) with (-41).
    set (P := (m * 13107200)%positive).
    assert (HP : Zpos P = Zpos m * 13107200) by reflexivity.
    destruct (Z_lt_le_dec (Zpos P) (2 ^ 47)) as [L|L].
    + assert (Hdig : Zpos (digits2_pos P) = 47)
        by (apply digits2_pos_unique; simpl Z.sub; lia).
      destruct (round_aux_shift32 false P (-41) 23) as (u & Hu & Hq & ->); try lia.
      assert (13107200 <= Zpos P / 2 ^ 23)
        by (apply Z.div_le_lower_bound; lia).
      change (-41 + 23) with (-18). change (-18 + 1) with (-17).
      destruct (Z.ltb_spec u (2 ^ 24)).
      * exists (Z.to_pos u), (-18). split; [reflexivity|]. left.
        rewrite Z2Pos.id by lia. lia.
      * eexists _, (-17). split; [reflexivity|]. right. simpl. lia.
    + assert (Hdig : Zpos (digits2_pos P) = 48)
        by (apply digits2_pos_unique; simpl Z.sub; lia).
      destruct (round_aux_shift32 false P (-41) 24) as (u & Hu & Hq & ->); try lia.
      assert (Zpos P / 2 ^ 24 < 13107200)
        by (apply Z.div_lt_upper_bound; lia).
      change (-41 + 24) with (-17).
      destruct (Z.ltb_spec u (2 ^ 24)); [|lia].
      exists (Z.to_pos u), (-17). split; [reflexivity|]. right.
      rewrite Z2Pos.id by lia. lia.
Qed.

Lemma fexp64_normal (x : Z) : -1021 <= x -> fexp prec64 emax64 x = x - 53.
Proof. unfold fexp, emin, prec64, emax64. lia. Qed.

(** [float(x)] keeps the value of a normal float32: the mantissa gets 29
    more bits. *)
Lemma float_of_float32_normal (s : bool) (m : positive) (e : Z) :
  2 ^ 23 <= Zpos m < 2 ^ 24 -> -1016 <= e <= 900 ->
  float_of_float32 (S754_finite s m e) =
    S754_finite s (Pos.iter xO m 29) (e - 29).
Proof.
  intros Hm He. unfold float_of_float32, binary_round.
  rewrite (digits2_pos_unique m 24) by (simpl Z.sub; lia).
  rewrite fexp64_normal by lia. unfold shl_align.
  replace (24 + e - 53 - e) with (Zneg 29) by lia.
  replace (24 + e - 53) with (e - 29) by lia.
  apply round_aux_noshift.
  - rewrite (digits2_pos_unique (Pos.iter xO m 29) 53).
    + rewrite fexp64_normal by lia. lia.
    + rewrite iter_xO. simpl Z.sub. lia.
  - unfold emax64, prec64. lia.
Qed.

Lemma div_half_even_bounds (a b lo hi : Z) :
  0 < b -> lo * b <= a <= hi * b ->
  lo <= div_half_even a b <= hi.
Proof.
  intros Hb [H1 H2]. unfold div_half_even.
  pose proof (Z.div_mod a b ltac:(lia)) as E.
  pose proof (Z.mod_pos_bound a b Hb) as R.
  set (q := a / b) in *. set (r := a mod b) in *.
  assert (lo <= q) by nia.
  assert (q <= hi) by nia.
  assert (q = hi -> r = 0) by nia.
  destruct (Z.compare_spec (2 * r) b); [destruct (Z.even q)| |]; lia.
Qed.

Lemma hundredths_range (n : positive) :
  5000 <= Zpos n <= 10000 -> percent_ok (hundredths false n) = true.
Proof.
  intros H.
  assert (A : forallb (fun k => percent_ok (hundredths false (Z.to_pos (5000 + Z.of_nat k))))
                (seq 0 (Z.to_nat 5001)) = true) by (vm_compute; reflexivity).
  rewrite forallb_forall in A.
  specialize (A (Z.to_nat (Zpos n - 5000))).
  replace (5000 + Z.of_nat (Z.to_nat (Zpos n - 5000))) with (Zpos n) in A by lia.
  apply A. apply in_seq. lia.
Qed.

Lemma py_round_percent (y : float32) :
  in_50_100 y -> percent_ok (py_round (float_of_float32 y) 2) = true.
Proof.
  intros (m & e & -> & H).
  assert (Hm : 2 ^ 23 <= Zpos m < 2 ^ 24) by lia.
  rewrite float_of_float32_normal by lia.
  unfold py_round.
  replace (0 <=? e - 29) with false by (symmetry; apply Z.leb_gt; lia).
  change (10 ^ Z.of_nat 2) with 100.
  rewrite iter_xO.
  assert (B : 5000 <= div_half_even (Zpos m * 2 ^ 29 * 100) (2 ^ (- (e - 29))) <= 10000).
  { destruct H as [[-> H]|[-> H]].
    - change (- (-18 - 29)) with 47. apply div_half_even_bounds; lia.
    - change (- (-17 - 29)) with 46. apply div_half_even_bounds; lia. }
  destruct (div_half_even (Zpos m * 2 ^ 29 * 100) (2 ^ (- (e - 29)))) as [|n|n];
    try lia.
  apply (hundredths_range n B).
Qed.

Lemma binary_round32_exact (s : bool) (D : positive) (e : Z) :
  Zpos (digits2_pos D) <= 24 ->
  -149 <= Zpos (digits2_pos D) + e - 24 <= 104 ->
  binary_round prec32 emax32 s D e =
    S754_finite s (Z.to_pos (Zpos D * 2 ^ (24 - Zpos (digits2_pos D))))
                (Zpos (digits2_pos D) + e - 24).
Proof.
  intros Hd He. unfold binary_round, shl_align.
  rewrite fexp32_normal by lia.
  pose proof (digits2_pos_bounds D) as HD.
  destruct (Zpos (digits2_pos D) + e - 24 - e) as [|k|k] eqn:Ek; try lia.
  - assert (Ed : Zpos (digits2_pos D) = 24) by lia.
    rewrite Ed. replace (24 + e - 24) with e by lia.
    rewrite Z.sub_diag, Z.mul_1_r. simpl Z.to_pos.
    apply round_aux_noshift.
    + rewrite Ed, fexp32_normal by lia. lia.
    + unfold emax32, prec32. lia.
  - replace (24 - Zpos (digits2_pos D)) with (Zpos k) by lia.
    rewrite <- iter_xO. simpl Z.to_pos.
    assert (Edig : Zpos (digits2_pos (Pos.iter xO D k)) = 24).
    { apply digits2_pos_unique. rewrite iter_xO.
      assert (0 < 2 ^ Zpos k) by (apply Z.pow_pos_nonneg; lia).
      assert (E1 : 2 ^ (24 - 1) = 2 ^ (Zpos (digits2_pos D) - 1) * 2 ^ Zpos k).
      { rewrite <- Z.pow_add_r by lia. f_equal. lia. }
      assert (E2 : 2 ^ 24 = 2 ^ Zpos (digits2_pos D) * 2 ^ Zpos k).
      { rewrite <- Z.pow_add_r by lia. f_equal. lia. }
      rewrite E1, E2.
      split; [apply Z.mul_le_mono_nonneg_r; lia|apply Z.mul_lt_mono_pos_r; lia]. }
    apply round_aux_noshift.
    + rewrite Edig, fexp32_normal by lia. lia.
    + unfold emax32, prec32. lia.
Qed.

(** For a float32 [p] between 0.5 and 1, [1 - p] is not above [p]. *)
Lemma sub_one_big (p : float32) :
  in_half_one p -> f32_lt p (f32_sub (f32_of_Z 1) p) = false.
Proof.
  intros [->|(m & -> & Hm)]; [reflexivity|].
  rewrite f32_of_Z_1. unfold f32_sub, f32_one, SFsub.
  change (Z.min (-23) (-24)) with (-24).
  change (fst (shl_align 8388608 (-23) (-24))) with 16777216%positive.
  change (fst (shl_align m (-24) (-24))) with m.
  cbn [cond_Zopp].
  destruct (Zpos 16777216 - Zpos m) as [|D|D] eqn:ED; try lia.
  unfold binary_normalize.
  pose proof (digits2_pos_bounds D) as HD.
  assert (Hd : Zpos (digits2_pos D) <= 24).
  { destruct (Z_lt_le_dec 24 (Zpos (digits2_pos D))) as [L|L]; [|lia].
    exfalso. assert (2 ^ 24 <= 2 ^ (Zpos (digits2_pos D) - 1))
      by (apply Z.pow_le_mono_r; lia). lia. }
  rewrite binary_round32_exact by lia.
  unfold f32_lt.
  destruct (SFltb (S754_finite false m (-24)) _) eqn:E; [|reflexivity].
  apply SFltb_finite_pos in E. exfalso.
  destruct E as [E|[E1 E2]]; [lia|].
  assert (Ed : Zpos (digits2_pos D) = 24) by lia.
  rewrite Ed in *. simpl in HD, E2. lia.
Qed.

(** For a float32 [p] with [0 < p < 0.5], [1 - p] is above [p]. *)
Lemma sub_one_small_above (m : positive) (e : Z) :
  is_float32 (S754_finite false m e) = true ->
  e <= -25 ->
  f32_lt (S754_finite false m e) (f32_sub (f32_of_Z 1) (S754_finite false m e)) = true.
Proof.
  intros Hv He.
  destruct (sub_one_small m e Hv He) as [->|(r & -> & Hr)];
    unfold f32_lt, f32_one; apply SFltb_finite_pos; lia.
Qed.

Lemma lt_half_small (m : positive) (e : Z) :
  is_float32 (S754_finite false m e) = true ->
  f32_lt (S754_finite false m e) f32_half = true ->
  e <= -25.
Proof.
  intros Hv H. rewrite f32_half_eq in H. apply SFltb_finite_pos in H.
  apply valid32_finite in Hv.
  pose proof (digits2_pos_bounds m) as Hd.
  destruct H as [H|[-> H]]; [lia|]. exfalso.
  replace (Zpos (digits2_pos m)) with 24 in Hd by lia. simpl Z.sub in Hd. lia.
Qed.

Lemma not_lt_half (m : positive) (e : Z) :
  f32_lt (S754_finite false m e) f32_half = false ->
  f32_le f32_half (S754_finite false m e) = true.
Proof.
  rewrite f32_half_eq. unfold f32_lt, f32_le, SFltb, SFleb.
  rewrite !SFcompare_finite_pos.
  rewrite (Z.compare_antisym e (-24)).
  rewrite (Z.compare_antisym (Zpos m) (Zpos 8388608)).
  destruct (e ?= -24); simpl; try discriminate; try reflexivity.
  destruct (m ?= 8388608)%positive; simpl; try discriminate; reflexivity.
Qed.

Lemma interpret_cases (p : float32) :
  is_float32 p = true ->
  f32_le f32_zero p = true ->
  f32_le p (f32_of_Z 1) = true ->
  exists r : float32,
    in_half_one r /\
    snd (interpret p) = f32_mul r (f32_of_Z 100) /\
    py_max p (f32_sub (f32_of_Z 1) p) = r.
Proof.
  intros Hv H0 H1.
  destruct p as [s|s| |s m e]; try (destruct s; discriminate); try discriminate.
  - exists f32_one. split; [left; reflexivity|]. destruct s; split; reflexivity.
  - destruct s; [discriminate|].
    unfold interpret, py_max.
    destruct (f32_lt (S754_finite false m e) f32_half) eqn:L.
    + pose proof (lt_half_small m e Hv L) as He.
      exists (f32_sub (f32_of_Z 1) (S754_finite false m e)).
      split; [apply sub_one_small; assumption|].
      split; [reflexivity|].
      rewrite sub_one_small_above by assumption. reflexivity.
    + pose proof (in_half_one_char _ Hv (not_lt_half m e L) H1) as Hp.
      exists (S754_finite false m e).
      split; [exact Hp|]. split; [reflexivity|].
      rewrite sub_one_big by exact Hp. reflexivity.
Qed.

Lemma shr_1_even (k : Z) :
  0 <= k ->
  shr_1 (Build_shr_record (2 * k) false false) = Build_shr_record k false false.
Proof. destruct k; intros H; reflexivity. Qed.

Lemma shr_iter_exact (n : nat) (k : Z) :
  0 <= k ->
  Nat.iter n shr_1 (Build_shr_record (k * 2 ^ Z.of_nat n) false false) =
  Build_shr_record k false false.
Proof.
  intros Hk. induction n as [|n IH].
  - simpl. rewrite Z.mul_1_r. reflexivity.
  - rewrite Nat.iter_succ_r, Nat2Z.inj_succ, Z.pow_succ_r by lia.
    replace (k * (2 * 2 ^ Z.of_nat n)) with (2 * (k * 2 ^ Z.of_nat n)) by lia.
    rewrite shr_1_even; [exact IH|].
    apply Z.mul_nonneg_nonneg; [lia|]. apply Z.pow_nonneg. lia.
Qed.

(** Rounding to float32 a number that is a float32 gives that number. *)
Lemma binary_round_exact_shift32 (s : bool) (D m : positive) (e n : Z) :
  Zpos D = Zpos m * 2 ^ n ->
  0 < n ->
  2 ^ 23 <= Zpos m < 2 ^ 24 ->
  -149 <= e + n <= 104 ->
  binary_round prec32 emax32 s D e = S754_finite s m (e + n).
Proof.
  intros HD Hn Hm He.
  assert (Hp : 0 < 2 ^ n) by (apply Z.pow_pos_nonneg; lia).
  assert (Hdig : Zpos (digits2_pos D) = 24 + n).
  { apply digits2_pos_unique. rewrite HD.
    replace (24 + n - 1) with (23 + n) by lia.
    rewrite !Z.pow_add_r by lia.
    split; [apply Z.mul_le_mono_nonneg_r; lia|apply Z.mul_lt_mono_pos_r; lia]. }
  unfold binary_round, shl_align.
  rewrite Hdig, fexp32_normal by lia.
  replace (24 + n + e - 24 - e) with n by lia.
  destruct n as [|pn|pn]; try lia.
  unfold binary_round_aux, shr_fexp at 1.
  cbn [Zdigits2 shr_record_of_loc].
  rewrite Hdig, fexp32_normal by lia.
  replace (24 + Zpos pn + e - 24 - e) with (Zpos pn) by lia.
  cbn [shr].
  assert (Hit : iter_pos shr_1 pn (Build_shr_record (Zpos D) false false) =
                Build_shr_record (Zpos m) false false).
  { rewrite iter_pos_nat, HD, <- (positive_nat_Z pn).
    apply shr_iter_exact. lia. }
  rewrite Hit.
  cbn [shr_m loc_of_shr_record round_nearest_even].
  unfold shr_fexp. cbn [Zdigits2 shr_record_of_loc].
  rewrite (digits2_pos_unique m 24) by (simpl Z.sub; lia).
  rewrite fexp32_normal by lia.
  replace (24 + (e + Zpos pn) - 24 - (e + Zpos pn)) with 0 by lia.
  cbn [shr shr_m].
  replace (e + Zpos pn <=? emax32 - prec32) with true
    by (symmetry; apply Z.leb_le; unfold emax32, prec32; lia).
  reflexivity.
Qed.

(** A positive float32 is determined by its value. *)
Lemma units_injective (m1 : positive) (e1 : Z) (m2 : positive) (e2 : Z) :
  is_float32 (S754_finite false m1 e1) = true ->
  is_float32 (S754_finite false m2 e2) = true ->
  units (S754_finite false m1 e1) = units (S754_finite false m2 e2) ->
  m1 = m2 /\ e1 = e2.
Proof.
  intros V1 V2. apply valid32_finite in V1, V2. cbn [units cond_Zopp].
  intros E.
  pose proof (digits2_pos_bounds m1) as B1.
  pose proof (digits2_pos_bounds m2) as B2.
  set (d1 := Zpos (digits2_pos m1)) in *. set (d2 := Zpos (digits2_pos m2)) in *.
  assert (P1 : 0 < 2 ^ (e1 + 149)) by (apply Z.pow_pos_nonneg; lia).
  assert (P2 : 0 < 2 ^ (e2 + 149)) by (apply Z.pow_pos_nonneg; lia).
  assert (Hd1 : 0 < d1) by (unfold d1; lia).
  assert (Hd2 : 0 < d2) by (unfold d2; lia).
  assert (Hsum : d1 + e1 = d2 + e2).
  { assert (L1 : 2 ^ (d1 - 1 + (e1 + 149)) <= Zpos m1 * 2 ^ (e1 + 149) < 2 ^ (d1 + (e1 + 149))).
    { rewrite (Z.pow_add_r 2 (d1 - 1) (e1 + 149)), (Z.pow_add_r 2 d1 (e1 + 149)) by lia.
      split; [apply Z.mul_le_mono_nonneg_r; lia|apply Z.mul_lt_mono_pos_r; lia]. }
    assert (L2 : 2 ^ (d2 - 1 + (e2 + 149)) <= Zpos m2 * 2 ^ (e2 + 149) < 2 ^ (d2 + (e2 + 149))).
    { rewrite (Z.pow_add_r 2 (d2 - 1) (e2 + 149)), (Z.pow_add_r 2 d2 (e2 + 149)) by lia.
      split; [apply Z.mul_le_mono_nonneg_r; lia|apply Z.mul_lt_mono_pos_r; lia]. }
    rewrite E in L1.
    destruct (Z.lt_trichotomy (d1 + e1) (d2 + e2)) as [L|[L|L]]; [|exact L|].
    - exfalso.
      assert (2 ^ (d1 + (e1 + 149)) <= 2 ^ (d2 - 1 + (e2 + 149)))
        by (apply Z.pow_le_mono_r; lia). lia.
    - exfalso.
      assert (2 ^ (d2 + (e2 + 149)) <= 2 ^ (d1 - 1 + (e1 + 149)))
        by (apply Z.pow_le_mono_r; lia). lia. }
  assert (He : e1 = e2) by lia. subst e2.
  split; [|reflexivity].
  apply Z.mul_reg_r in E; [congruence|lia].
Qed.

(** When [1 - p] is a float32 number, the subtraction gives it. *)
Lemma sub_one_exact (m : positive) (e : Z) (mq : positive) :
  is_float32 (S754_finite false m e) = true ->
  e <= -25 ->
  2 ^ 23 <= Zpos mq < 2 ^ 24 ->
  units (S754_finite false m e) + units (S754_finite false mq (-24)) = 2 ^ 149 ->
  f32_sub (f32_of_Z 1) (S754_finite false m e) = S754_finite false mq (-24).
Proof.
  intros Hv He Hq Hu.
  destruct (sub_one_as_round m e Hv He) as (D & HD & _ & ->).
  apply valid32_finite in Hv.
  cbn [units cond_Zopp] in Hu. change (-24 + 149) with 125 in Hu.
  assert (P : 0 < 2 ^ (e + 149)) by (apply Z.pow_pos_nonneg; lia).
  assert (E1 : 2 ^ 125 = 2 ^ (-24 - e) * 2 ^ (e + 149)).
  { rewrite <- Z.pow_add_r by lia. f_equal. lia. }
  assert (E2 : 2 ^ 149 = 2 ^ (- e) * 2 ^ (e + 149)).
  { rewrite <- Z.pow_add_r by lia. f_equal. lia. }
  assert (E : Zpos D = Zpos mq * 2 ^ (-24 - e)).
  { rewrite HD. apply (Z.mul_reg_r _ _ (2 ^ (e + 149))); [lia|].
    rewrite Z.mul_sub_distr_r, <- E2, <- Z.mul_assoc, <- E1. lia. }
  rewrite (binary_round_exact_shift32 false D mq e (-24 - e) E) by lia.
  f_equal. lia.
Qed.

Lemma returned_confidence_far_side (p : float32) :
  returned_confidence p =
    py_round (float_of_float32 (f32_mul (far_side p) (f32_of_Z 100))) 2.
Proof.
  unfold returned_confidence, interpret, far_side.
  destruct (f32_lt p f32_half); reflexivity.
Qed.

(** The float32 numbers from 0 to 1: a zero, a positive number below 0.5,
    or a number from 0.5 to 1. *)
Lemma unit_interval_cases (p : float32) :
  is_float32 p = true ->
  f32_le f32_zero p = true ->
  f32_le p (f32_of_Z 1) = true ->
  (exists s, p = S754_zero s) \/
  (exists m e, p = S754_finite false m e /\ e <= -25 /\
               f32_lt p f32_half = true /\ 0 < units p < 2 ^ 148) \/
  (in_half_one p /\ f32_lt p f32_half = false /\ 2 ^ 148 <= units p).
Proof.
  intros Hv H0 H1.
  destruct p as [s|s| |s m e]; try (destruct s; discriminate); try discriminate.
  - left. eauto.
  - destruct s; [discriminate|]. right.
    destruct (f32_lt (S754_finite false m e) f32_half) eqn:L.
    + left. pose proof (lt_half_small m e Hv L) as He.
      exists m, e. repeat split; auto.
      * cbn [units cond_Zopp]. apply valid32_finite in Hv.
        apply Z.mul_pos_pos; [lia|apply Z.pow_pos_nonneg; lia].
      * cbn [units cond_Zopp]. apply valid32_finite in Hv.
        pose proof (digits2_pos_bounds m) as Hd.
        assert (Hm : Zpos m < 2 ^ 24).
        { eapply Z.lt_le_trans; [apply Hd|]. apply Z.pow_le_mono_r; lia. }
        assert (P : 0 < 2 ^ (e + 149)) by (apply Z.pow_pos_nonneg; lia).
        assert (2 ^ 24 * 2 ^ (e + 149) <= 2 ^ 148).
        { rewrite <- Z.pow_add_r by lia. apply Z.pow_le_mono_r; lia. }
        assert (Zpos m * 2 ^ (e + 149) < 2 ^ 24 * 2 ^ (e + 149))
          by (apply Z.mul_lt_mono_pos_r; lia).
        lia.
    + right. pose proof (in_half_one_char _ Hv (not_lt_half m e L) H1) as Hp.
      split; [exact Hp|]. split; [reflexivity|].
      destruct Hp as [E|(m' & E & Hm')]; inversion E; subst.
      * vm_compute. discriminate.
      * cbn [units cond_Zopp]. change (-24 + 149) with 125.
        change (2 ^ 148) with (2 ^ 23 * 2 ^ 125). 
        apply Z.mul_le_mono_nonneg_r; [apply Z.pow_nonneg|]; lia.
Qed.

Lemma in_half_one_units (x y : float32) :
  in_half_one x -> in_half_one y -> units x = units y -> x = y.
Proof.
  assert (P : 0 < 2 ^ 125) by (apply Z.pow_pos_nonneg; lia).
  assert (E149 : 2 ^ 149 = 2 ^ 24 * 2 ^ 125) by reflexivity.
  intros [->|(m & -> & Hm)] [->|(n & -> & Hn)]; cbn [units cond_Zopp f32_one];
    change (-24 + 149) with 125; change (-23 + 149) with 126;
    change (8388608 * 2 ^ 126) with (2 ^ 149); intros E.
  - reflexivity.
  - exfalso. rewrite E149 in E.
    apply Z.mul_reg_r in E; lia.
  - exfalso. rewrite E149 in E.
    apply Z.mul_reg_r in E; lia.
  - apply Z.mul_reg_r in E; [|lia]. congruence.
Qed.

Lemma far_side_equidistant (p q : float32) :
  is_float32 p = true -> is_float32 q = true ->
  f32_le f32_zero p = true -> f32_le p (f32_of_Z 1) = true ->
  f32_le f32_zero q = true -> f32_le q (f32_of_Z 1) = true ->
  distance_from_threshold p = distance_from_threshold q ->
  far_side p = far_side q.
Proof.
  intros Vp Vq P0 P1 Q0 Q1. unfold distance_from_threshold.
  assert (E149 : 2 ^ 149 = 2 * 2 ^ 148) by reflexivity.
  assert (P148 : 0 < 2 ^ 148) by (apply Z.pow_pos_nonneg; lia).
  destruct (unit_interval_cases p Vp P0 P1)
    as [(sp & ->)|[(mp & ep & -> & Hep & Lp & Up)|(Hp & Lp & Up)]];
  destruct (unit_interval_cases q Vq Q0 Q1)
    as [(sq & ->)|[(mq & eq & -> & Heq & Lq & Uq)|(Hq & Lq & Uq)]];
  intros E.
  - destruct sp, sq; reflexivity.
  - exfalso. change (units (S754_zero sp)) with 0 in E. lia.
  - assert (q = f32_one) as ->.
    { apply in_half_one_units; [exact Hq|left; reflexivity|].
      change (units (S754_zero sp)) with 0 in E.
      change (units f32_one) with (2 ^ 149). lia. }
    destruct sp; reflexivity.
  - exfalso. change (units (S754_zero sq)) with 0 in E. lia.
  - assert (units (S754_finite false mp ep) = units (S754_finite false mq eq)) as Eu by lia.
    destruct (units_injective mp ep mq eq Vp Vq Eu) as [-> ->]. reflexivity.
  - unfold far_side. rewrite Lp, Lq.
    assert (Eu : units (S754_finite false mp ep) + units q = 2 ^ 149) by lia.
    destruct Hq as [->|(m & -> & Hm)].
    + exfalso. change (units f32_one) with (2 ^ 149) in Eu. lia.
    + apply sub_one_exact; assumption.
  - assert (p = f32_one) as ->.
    { apply in_half_one_units; [exact Hp|left; reflexivity|].
      change (units (S754_zero sq)) with 0 in E.
      change (units f32_one) with (2 ^ 149). lia. }
    destruct sq; reflexivity.
  - unfold far_side. rewrite Lp, Lq.
    assert (Eu : units (S754_finite false mq eq) + units p = 2 ^ 149) by lia.
    destruct Hp as [->|(m & -> & Hm)].
    + exfalso. change (units f32_one) with (2 ^ 149) in Eu. lia.
    + symmetry. apply sub_one_exact; assumption.
  - unfold far_side. rewrite Lp, Lq.
    apply in_half_one_units; try assumption. lia.
Qed.

End FloatFacts.

(** ** The endpoints *)

Section EndpointFacts.

Variable librosa : Librosa.

(** What the prediction endpoint does once the model is loaded and the
    extractor has returned an array: one forward pass on the array with the
    two extra axes, then the interpretation of the first output. *)
Lemma predict_audio_success (srv : server) (mdl : Model) (file : UploadFile)
    (t : list event) (A : ndarray) (p : float32) (row : list float32)
    (rows : list (list float32)) :
  model srv = Some mdl ->
  audio_to_spectrogram librosa (read file) = (t, Ok (Some A)) ->
  mdl (add_batch_and_channel A) = Ok ((p :: row) :: rows) ->
  predict_audio librosa srv file =
    (t ++ [Predict (add_batch_and_channel A)],
     Ok (Dict (prediction_body (fst (interpret p)) (returned_confidence p)))).
Proof.
  intros Hm Ha Hp. unfold predict_audio. rewrite Hm, Ha. simpl.
  unfold call. rewrite Hp. simpl.
  unfold returned_confidence, prediction_body.
  destruct (interpret p) as [label confidence]. simpl.
  reflexivity.
Qed.

Lemma predict_audio_bad_audio (srv : server) (mdl : Model) (file : UploadFile)
    (t : list event) :
  model srv = Some mdl ->
  audio_to_spectrogram librosa (read file) = (t, Ok None) ->
  predict_audio librosa srv file = (t, Ok bad_audio_response).
Proof.
  intros Hm Ha. unfold predict_audio. rewrite Hm, Ha. simpl.
  rewrite ?app_nil_r. reflexivity.
Qed.

End EndpointFacts.

(** C1. When the model is loaded and the extractor returns an array, the
    response is a dictionary whose prediction is "HUMAN" if the first model
    output is below 0.5 and "AI-GENERATED" otherwise, and which carries the
    confidence next to it. *)
Theorem label_is_threshold_of_model_output
    (librosa : Librosa) (srv : server) (mdl : Model) (file : UploadFile)
    (t : list event) (A : ndarray) (p : float32) (row : list float32)
    (rows : list (list float32)) :
  model srv = Some mdl ->
  audio_to_spectrogram librosa (read file) = (t, Ok (Some A)) ->
  mdl (add_batch_and_channel A) = Ok ((p :: row) :: rows) ->
  outcome (predict_audio librosa srv file) =
    Ok (Dict [("prediction"%string,
               JString (if f32_lt p f32_half then "HUMAN" else "AI-GENERATED")%string);
              ("confidence"%string, JNumber (returned_confidence p))]).
Proof.
  intros Hm Ha Hp.
  rewrite (predict_audio_success librosa srv mdl file t A p row rows Hm Ha Hp). simpl.
  unfold prediction_body, interpret.
  destruct (f32_lt p f32_half); reflexivity.
Qed.

Lemma label_is_threshold_of_model_output_witness :
  outcome (predict_audio Samples.tone_librosa Samples.loaded Samples.clip) =
    Ok (Dict [("prediction"%string, JString "HUMAN");
              ("confidence"%string,
               JNumber (returned_confidence Samples.f32_quarter))]).
Proof.
  refine (@label_is_threshold_of_model_output Samples.tone_librosa Samples.loaded
            (Samples.constant_model Samples.f32_quarter) Samples.clip
            _ _ Samples.f32_quarter [] [] eq_refl _ eq_refl).
  vm_compute. reflexivity.
Defined.

(** C4. When loading the model raises at startup, startup still completes
    with [model = None], and from then on every call of the prediction
    endpoint returns status 500 with the body
    [{"error": "Model not loaded on server."}] and an empty trace: no
    librosa call and no forward pass. *)
Theorem model_not_loaded_gives_500
    (librosa : Librosa) (load_model : Loader) (e : string) :
  load_model "Promodel.keras"%string = Raise e ->
  exists t srv,
    startup load_model = (t, Ok srv) /\
    model srv = None /\
    forall file : UploadFile,
      predict_audio librosa srv file = ([], Ok no_model_response) /\
      status_of no_model_response = 500%Z /\
      body_of no_model_response =
        [("error"%string, JString "Model not loaded on server.")].
Proof.
  intros Hl. unfold startup, call. simpl. rewrite Hl. simpl.
  eexists. exists {| model := None |}.
  split; [reflexivity|]. split; [reflexivity|].
  intros file. unfold predict_audio. simpl. auto.
Qed.

Lemma model_not_loaded_gives_500_witness :
  exists t srv,
    startup Samples.missing_file_loader = (t, Ok srv) /\
    model srv = None /\
    forall file : UploadFile,
      predict_audio Samples.tone_librosa srv file = ([], Ok no_model_response) /\
      status_of no_model_response = 500%Z /\
      body_of no_model_response =
        [("error"%string, JString "Model not loaded on server.")].
Proof.
  exact (@model_not_loaded_gives_500 Samples.tone_librosa
           Samples.missing_file_loader _ eq_refl).
Defined.

(** C5. Whatever the librosa functions return for the file (any number of
    samples, any sample rate, any number of frames), an array returned by
    the extractor has shape (128, 128) and holds 128 * 128 elements. *)
Theorem spectrogram_shape_is_128_by_128
    (librosa : Librosa) (file_bytes : bytes) (t : list event) (A : ndarray) :
  audio_to_spectrogram librosa file_bytes = (t, Ok (Some A)) ->
  shape A = [128; 128]%nat /\ List.length (data A) = (128 * 128)%nat.
Proof.
  exact (audio_to_spectrogram_shape librosa file_bytes t A).
Qed.

Lemma spectrogram_shape_is_128_by_128_witness :
  exists t A,
    audio_to_spectrogram Samples.tone_librosa Samples.wav_header = (t, Ok (Some A)) /\
    shape A = [128; 128]%nat /\ List.length (data A) = (128 * 128)%nat.
Proof.
  eexists. eexists.
  refine ((fun H => conj H (@spectrogram_shape_is_128_by_128
             Samples.tone_librosa Samples.wav_header _ _ H)) _).
  vm_compute. reflexivity.
Defined.

(** C6. In every run of the prediction endpoint that returns a prediction,
    the model's forward pass is run exactly once, on the extractor's
    128 by 128 array with one axis added in front and one at the end: same
    elements, shape (1, 128, 128, 1). *)
Theorem model_input_is_1_128_128_1
    (librosa : Librosa) (srv : server) (file : UploadFile)
    (t : list event) (body : json_object) :
  predict_audio librosa srv file = (t, Ok (Dict body)) ->
  exists t0 A,
    audio_to_spectrogram librosa (read file) = (t0, Ok (Some A)) /\
    shape A = [128; 128]%nat /\
    predict_inputs t = [add_batch_and_channel A] /\
    shape (add_batch_and_channel A) = [1; 128; 128; 1]%nat /\
    data (add_batch_and_channel A) = data A.
Proof.
  unfold predict_audio.
  destruct (model srv) as [mdl|]; [|discriminate].
  pose proof (audio_to_spectrogram_no_predict librosa (read file)) as Hnp.
  destruct (audio_to_spectrogram_returns librosa (read file)) as (t0 & r & Ha).
  rewrite Ha in *. simpl in Hnp. simpl.
  destruct r as [A|]; simpl; [|discriminate].
  destruct (audio_to_spectrogram_shape librosa (read file) t0 A Ha) as [Hs _].
  unfold call.
  destruct (mdl (add_batch_and_channel A)) as [[|[|p row] rows]|e]; simpl;
    try discriminate.
  destruct (interpret p) as [label confidence]. simpl.
  intros H. inversion H; subst. clear H.
  exists t0, A. split; [reflexivity|]. split; [exact Hs|].
  split.
  - unfold predict_inputs in *. rewrite !flat_map_app, Hnp. reflexivity.
  - unfold add_batch_and_channel. simpl. rewrite Hs. split; reflexivity.
Qed.

Lemma model_input_is_1_128_128_1_witness :
  exists t body t0 A,
    predict_audio Samples.tone_librosa Samples.loaded Samples.clip = (t, Ok (Dict body)) /\
    audio_to_spectrogram Samples.tone_librosa (read Samples.clip) = (t0, Ok (Some A)) /\
    shape A = [128; 128]%nat /\
    predict_inputs t = [add_batch_and_channel A] /\
    shape (add_batch_and_channel A) = [1; 128; 128; 1]%nat /\
    data (add_batch_and_channel A) = data A.
Proof.
  eexists. eexists.
  assert (H : predict_audio Samples.tone_librosa Samples.loaded Samples.clip =
              (fst (predict_audio Samples.tone_librosa Samples.loaded Samples.clip),
               Ok (Dict (prediction_body "HUMAN"
                           (returned_confidence Samples.f32_quarter))))).
  { vm_compute. reflexivity. }
  destruct (model_input_is_1_128_128_1 _ _ _ _ _ H) as (t0 & A & H1).
  exists t0, A. split; [exact H | exact H1].
Defined.

(** The handler reads an upload only through [file.read()]: the file name
    and the content type are never looked at, and two uploads with the same
    bytes are handled in the same way.  (That two runs of librosa and of the
    forward pass on the same bytes agree is taken for granted by the types
    of [Librosa] and [Model]; it is not a property of the handler.) *)
Lemma upload_is_read_through_its_bytes
    (librosa : Librosa) (srv : server) (file1 file2 : UploadFile) :
  contents file1 = contents file2 ->
  predict_audio librosa srv file1 = predict_audio librosa srv file2.
Proof.
  intros Hc. unfold predict_audio, read. rewrite Hc. reflexivity.
Qed.

(** C8. Every GET request for the path "/" is answered by [root], with the
    same dictionary [{"message": "🎧 Deepfake Audio Detector API is
    running!"}] and no effect, whatever the query, the headers, the body and
    the state of the model. *)
Theorem root_is_static (librosa : Librosa) (srv : server) (req : request) :
  method req = "GET"%string ->
  path req = "/"%string ->
  app librosa srv req = Some ([], Ok root_response) /\
  status_of root_response = 200%Z /\
  body_of root_response =
    [("message"%string, JString "🎧 Deepfake Audio Detector API is running!")].
Proof.
  intros Hm Hp. unfold app. rewrite Hm, Hp. simpl. auto.
Qed.

Lemma root_is_static_witness :
  app Samples.tone_librosa Samples.not_loaded Samples.get_root =
    Some ([], Ok root_response) /\
  status_of root_response = 200%Z /\
  body_of root_response =
    [("message"%string, JString "🎧 Deepfake Audio Detector API is running!")].
Proof.
  exact (@root_is_static Samples.tone_librosa Samples.not_loaded Samples.get_root
           eq_refl eq_refl).
Defined.

(** C9 as stated fails: with no model loaded, a file the extractor cannot
    process is answered with status 500, not 400. *)
Lemma bad_audio_without_model_is_500 :
  outcome (audio_to_spectrogram Samples.tone_librosa (read Samples.not_audio)) = Ok None /\
  predict_audio Samples.tone_librosa Samples.not_loaded Samples.not_audio =
    ([], Ok no_model_response) /\
  status_of no_model_response <> 400%Z.
Proof.
  split; [reflexivity|]. split; [reflexivity|]. discriminate.
Qed.

(** C9, amended. When the model is loaded, every uploaded file on which the
    extractor returns [None] is answered with status 400 and the body
    [{"error": "Could not process audio file."}], and the model's forward
    pass is not run in that request. *)
Theorem bad_audio_gives_400
    (librosa : Librosa) (srv : server) (mdl : Model) (file : UploadFile) :
  model srv = Some mdl ->
  outcome (audio_to_spectrogram librosa (read file)) = Ok None ->
  outcome (predict_audio librosa srv file) = Ok bad_audio_response /\
  status_of bad_audio_response = 400%Z /\
  body_of bad_audio_response =
    [("error"%string, JString "Could not process audio file.")] /\
  predict_inputs (trace (predict_audio librosa srv file)) = [].
Proof.
  intros Hm Ha.
  pose proof (audio_to_spectrogram_no_predict librosa (read file)) as Hnp.
  destruct (audio_to_spectrogram librosa (read file)) as [t r] eqn:E.
  simpl in Ha, Hnp. subst r.
  rewrite (predict_audio_bad_audio librosa srv mdl file t Hm E). simpl.
  repeat split; auto.
Qed.

Lemma bad_audio_gives_400_witness :
  outcome (predict_audio Samples.tone_librosa Samples.loaded Samples.not_audio) =
    Ok bad_audio_response /\
  status_of bad_audio_response = 400%Z /\
  body_of bad_audio_response =
    [("error"%string, JString "Could not process audio file.")] /\
  predict_inputs (trace (predict_audio Samples.tone_librosa Samples.loaded
                           Samples.not_audio)) = [].
Proof.
  exact (@bad_audio_gives_400 Samples.tone_librosa Samples.loaded
           (Samples.constant_model Samples.f32_quarter) Samples.not_audio
           eq_refl eq_refl).
Defined.

(** ** The confidence *)

(** C10. For every float32 model output [p] with [0 <= p <= 1], the
    confidence returned by the prediction endpoint is
    [round(max(p, 1 - p) * 100, 2)], and it lies between 50 and 100
    inclusive: it is never below 50. *)
Theorem confidence_between_50_and_100 (p : float32) :
  is_float32 p = true ->
  f32_le f32_zero p = true ->
  f32_le p (f32_of_Z 1) = true ->
  returned_confidence p = confidence_formula p /\
  f64_le (f64_of_Z 50) (returned_confidence p) = true /\
  f64_le (returned_confidence p) (f64_of_Z 100) = true /\
  f64_lt (returned_confidence p) (f64_of_Z 50) = false.
Proof.
  intros Hv H0 H1.
  destruct (interpret_cases p Hv H0 H1) as (r & Hr & E1 & E2).
  unfold returned_confidence, confidence_formula. rewrite E1, E2.
  split; [reflexivity|].
  pose proof (py_round_percent _ (mul_100_range r Hr)) as H.
  unfold percent_ok in H.
  apply andb_true_iff in H. destruct H as [H Hc].
  apply andb_true_iff in H. destruct H as [H Hb].
  apply andb_true_iff in H. destruct H as [_ Ha].
  apply negb_true_iff in Hc.
  repeat split; assumption.
Qed.

Lemma confidence_between_50_and_100_witness :
  returned_confidence Samples.f32_quarter = confidence_formula Samples.f32_quarter /\
  f64_le (f64_of_Z 50) (returned_confidence Samples.f32_quarter) = true /\
  f64_le (returned_confidence Samples.f32_quarter) (f64_of_Z 100) = true /\
  f64_lt (returned_confidence Samples.f32_quarter) (f64_of_Z 50) = false.
Proof.
  exact (confidence_between_50_and_100 Samples.f32_quarter eq_refl eq_refl eq_refl).
Defined.

(** C2 as stated fails: at the threshold [p = 0.5] the distance from the
    threshold is 0, and the returned confidence is 50.0. *)
Lemma confidence_at_threshold_is_50 :
  distance_from_threshold_percent f32_half = S754_zero false /\
  returned_confidence f32_half = f64_of_Z 50 /\
  returned_confidence f32_half <> distance_from_threshold_percent f32_half.
Proof.
  split; [reflexivity|]. split; [reflexivity|]. discriminate.
Qed.

(** C2, amended. For float32 model outputs between 0 and 1 the returned
    confidence is a function of the distance from the threshold alone: two
    outputs at the same distance from 0.5 get the same confidence.  It is
    the percentage of [1 - p] below the threshold and of [p] from the
    threshold on, rounded to two decimals, so that the threshold itself maps
    to 50.0. *)
Theorem confidence_depends_on_distance_from_threshold (p q : float32) :
  is_float32 p = true -> is_float32 q = true ->
  f32_le f32_zero p = true -> f32_le p (f32_of_Z 1) = true ->
  f32_le f32_zero q = true -> f32_le q (f32_of_Z 1) = true ->
  distance_from_threshold p = distance_from_threshold q ->
  returned_confidence p = returned_confidence q /\
  returned_confidence p =
    py_round (float_of_float32
                (f32_mul (if f32_lt p f32_half then f32_sub (f32_of_Z 1) p else p)
                         (f32_of_Z 100))) 2 /\
  (distance_from_threshold p = 0%Z -> returned_confidence p = f64_of_Z 50).
Proof.
  intros Vp Vq P0 P1 Q0 Q1 E.
  split; [|split].
  - rewrite !returned_confidence_far_side.
    rewrite (far_side_equidistant p q Vp Vq P0 P1 Q0 Q1 E). reflexivity.
  - apply returned_confidence_far_side.
  - unfold distance_from_threshold. intros D.
    assert (P148 : (0 < 2 ^ 148)%Z) by (apply Z.pow_pos_nonneg; lia).
    destruct (unit_interval_cases p Vp P0 P1)
      as [(s & ->)|[(m & e & -> & _ & _ & U)|(Hp & _ & U)]].
    + exfalso. change (units (S754_zero s)) with 0%Z in D. lia.
    + exfalso. lia.
    + assert (p = f32_half) as ->; [|reflexivity].
      apply in_half_one_units; [exact Hp| |].
      * right. exists 8388608%positive. split; [reflexivity|]. simpl. lia.
      * change (units f32_half) with (2 ^ 148)%Z. lia.
Qed.

Lemma confidence_depends_on_distance_from_threshold_witness :
  returned_confidence Samples.f32_quarter =
    returned_confidence Samples.f32_three_quarters /\
  returned_confidence Samples.f32_quarter =
    py_round (float_of_float32
                (f32_mul (if f32_lt Samples.f32_quarter f32_half
                          then f32_sub (f32_of_Z 1) Samples.f32_quarter
                          else Samples.f32_quarter)
                         (f32_of_Z 100))) 2 /\
  (distance_from_threshold Samples.f32_quarter = 0%Z ->
   returned_confidence Samples.f32_quarter = f64_of_Z 50).
Proof.
  apply (confidence_depends_on_distance_from_threshold
           Samples.f32_quarter Samples.f32_three_quarters);
    vm_compute; reflexivity.
Defined.

(** ** Normalization of a constant spectrogram *)

Section ConstantSpectrogram.

Lemma fold_left_constant (f : float32 -> float32 -> float32) (c : float32)
    (xs : list float32) :
  f c c = c -> Forall (fun x => x = c) xs -> fold_left f xs c = c.
Proof.
  intros Hf H. induction H as [|x xs -> _ IH]; simpl.
  - reflexivity.
  - rewrite Hf. exact IH.
Qed.

Lemma np_minimum_same (c : float32) : np_minimum c c = c.
Proof. unfold np_minimum. destruct (_ || _); reflexivity. Qed.

Lemma np_maximum_same (c : float32) : np_maximum c c = c.
Proof. unfold np_maximum. destruct (_ || _); reflexivity. Qed.

(** The extrema of a constant array are its value. *)
Lemma extrema_of_constant (a : ndarray) (c : float32) :
  data a <> [] -> Forall (fun x => x = c) (data a) ->
  np_min a = Some c /\ np_max a = Some c.
Proof.
  unfold np_min, np_max. destruct (data a) as [|x xs]; [congruence|].
  intros _ H. inversion H as [|? ? -> Hxs]; subst.
  rewrite !fold_left_constant; auto using np_minimum_same, np_maximum_same.
Qed.

(** [c - c] is a zero, or NaN when [c] is not finite; in both cases the
    quotient of two such differences is NaN. *)
Lemma zero_range_quotient (c : float32) :
  f32_div (f32_sub c c) (f32_sub c c) = S754_nan.
Proof.
  destruct c as [[|]|[|]| |s m e]; try reflexivity.
  unfold f32_sub, SFsub. rewrite Z.sub_diag. reflexivity.
Qed.

(** Resizing a constant array gives a constant array. *)
Lemma np_resize_constant (a : ndarray) (sh : list nat) (c : float32) :
  Forall (fun x => x = c) (data a) ->
  Forall (fun x => x = c) (data (np_resize a sh)) \/
  Forall (fun x => x = f32_zero) (data (np_resize a sh)).
Proof.
  intros H. unfold np_resize. destruct (_ || _); simpl.
  - right. apply Forall_forall. intros x Hx. apply repeat_spec in Hx. exact Hx.
  - left. apply Forall_forall. intros x Hx.
    apply in_firstn in Hx. apply in_concat in Hx. destruct Hx as (l & Hl & Hx).
    apply repeat_spec in Hl. subst l.
    rewrite Forall_forall in H. auto.
Qed.

Variable librosa : Librosa.

(** When the decibel spectrogram of the file has the same value in every
    cell, the extractor returns an array (not [None]) in which every one of
    the 128 * 128 entries is NaN. *)
Lemma constant_spectrogram_gives_nan (file_bytes : bytes) (y : ndarray) (sr : Z)
    (S S_DB : ndarray) (c : float32) :
  load librosa file_bytes = Ok (y, sr) ->
  melspectrogram librosa y sr 128 = Ok S ->
  power_to_db librosa S = Ok S_DB ->
  Forall (fun x => x = c) (data S_DB) ->
  exists A,
    outcome (audio_to_spectrogram librosa file_bytes) = Ok (Some A) /\
    List.length (data A) = (128 * 128)%nat /\
    Forall (fun x => x = S754_nan) (data A).
Proof.
  intros E1 E2 E3 Hc.
  pose proof (np_resize_length S_DB [128; 128]%nat) as Hlen.
  assert (Hne : data (np_resize S_DB [128; 128]%nat) <> []).
  { intros E. rewrite E in Hlen. simpl in Hlen.
    pose proof size_128_128_pos. congruence. }
  assert (Hk : exists k, Forall (fun x => x = k) (data (np_resize S_DB [128; 128]%nat))).
  { destruct (np_resize_constant S_DB [128; 128]%nat c Hc); eauto. }
  destruct Hk as [k Hk].
  destruct (extrema_of_constant _ k Hne Hk) as [Hmin Hmax].
  unfold audio_to_spectrogram, min_max_normalize, call.
  rewrite E1. simpl. rewrite E2. simpl. rewrite E3. simpl.
  rewrite Hmin, Hmax. simpl.
  eexists. split; [reflexivity|]. simpl. split.
  - rewrite !length_map. exact Hlen.
  - rewrite map_map. apply Forall_forall. intros x Hx.
    apply in_map_iff in Hx. destruct Hx as (x0 & <- & Hx0).
    rewrite Forall_forall in Hk. rewrite (Hk x0 Hx0).
    apply zero_range_quotient.
Qed.

End ConstantSpectrogram.

(** C3 fails on digital silence: librosa decodes the file, the decibel
    spectrogram is 0 dB in every cell, the range [max - min] is 0, and
    every entry of the returned array is the NaN of 0/0, which is not in
    [0, 1]. *)
Theorem silence_is_normalized_to_nan :
  exists A,
    outcome (audio_to_spectrogram Samples.silence_librosa Samples.wav_header) =
      Ok (Some A) /\
    List.length (data A) = (128 * 128)%nat /\
    Forall (fun x => x = S754_nan /\ in_unit_interval x = false) (data A).
Proof.
  destruct (constant_spectrogram_gives_nan Samples.silence_librosa
              Samples.wav_header _ 16000%Z _ (Samples.silence_db 1) f32_zero
              eq_refl eq_refl eq_refl) as (A & H1 & H2 & H3).
  - apply Forall_forall. intros x Hx. apply repeat_spec in Hx. exact Hx.
  - exists A. split; [exact H1|]. split; [exact H2|].
    eapply Forall_impl; [|exact H3]. intros x ->. split; reflexivity.
Qed.

(** * Further properties of the handlers *)

Section PredictRuns.

Variable librosa : Librosa.

(** The forward pass raising inside the [try], with message [e]. *)
Lemma predict_audio_model_raises (srv : server) (mdl : Model) (file : UploadFile)
    (t : list event) (A : ndarray) (e : string) :
  model srv = Some mdl ->
  audio_to_spectrogram librosa (read file) = (t, Ok (Some A)) ->
  mdl (add_batch_and_channel A) = Raise e ->
  predict_audio librosa srv file =
    (t ++ [Predict (add_batch_and_channel A);
           Print ("❌ Prediction error: " ++ e)%string],
     Ok (JSONResponse 500 [("error"%string, JString e)])).
Proof.
  intros Hm Ha Hp. unfold predict_audio. rewrite Hm, Ha. simpl.
  unfold call. rewrite Hp. simpl. rewrite <- app_assoc. reflexivity.
Qed.

(** The forward pass returning an empty batch, or a batch whose first row
    is empty: indexing raises inside the [try]. *)
Lemma predict_audio_empty_output (srv : server) (mdl : Model) (file : UploadFile)
    (t : list event) (A : ndarray) (out : list (list float32)) :
  model srv = Some mdl ->
  audio_to_spectrogram librosa (read file) = (t, Ok (Some A)) ->
  mdl (add_batch_and_channel A) = Ok out ->
  out = [] \/ (exists rows, out = [] :: rows) ->
  exists e,
    predict_audio librosa srv file =
      (t ++ [Predict (add_batch_and_channel A);
             Print ("❌ Prediction error: " ++ e)%string],
       Ok (JSONResponse 500 [("error"%string, JString e)])).
Proof.
  intros Hm Ha Hp Ho. unfold predict_audio. rewrite Hm, Ha. simpl.
  unfold call. rewrite Hp.
  destruct Ho as [->|[rows ->]]; simpl; eexists; rewrite <- app_assoc;
    reflexivity.
Qed.

End PredictRuns.

(** X1. The extractor never raises.  It returns [None] exactly when one of
    the three librosa calls raises, and then prints the exception; when
    librosa gives a decibel spectrogram, the NumPy steps cannot fail and the
    result is the resized spectrogram normalized by its extrema. *)
Theorem extractor_fails_only_with_librosa (librosa : Librosa) (file_bytes : bytes) :
  match librosa_pipeline librosa file_bytes with
  | Raise e =>
      outcome (audio_to_spectrogram librosa file_bytes) = Ok None /\
      In (Print ("⚠️ Error processing file: " ++ e)%string)
         (trace (audio_to_spectrogram librosa file_bytes))
  | Ok S_DB =>
      exists lo hi,
        np_min (np_resize S_DB [128; 128]%nat) = Some lo /\
        np_max (np_resize S_DB [128; 128]%nat) = Some hi /\
        outcome (audio_to_spectrogram librosa file_bytes) =
          Ok (Some (normalized S_DB lo hi))
  end.
Proof.
  unfold librosa_pipeline, audio_to_spectrogram, min_max_normalize, call.
  destruct (load librosa file_bytes) as [[y sr]|e]; simpl;
    [|split; [reflexivity|right; left; reflexivity]].
  destruct (melspectrogram librosa y sr 128) as [S|e]; simpl;
    [|split; [reflexivity|right; right; left; reflexivity]].
  destruct (power_to_db librosa S) as [S_DB|e]; simpl;
    [|split; [reflexivity|right; right; right; left; reflexivity]].
  destruct (np_min_resize S_DB [128; 128]%nat size_128_128_pos) as [lo Hlo].
  destruct (np_max_resize S_DB [128; 128]%nat size_128_128_pos) as [hi Hhi].
  exists lo, hi. rewrite Hlo, Hhi. simpl. auto.
Qed.

(** A returned dictionary goes out with 200, or with 500 when it cannot be
    written as JSON. *)
Lemma status_of_dict_cases (d : json_object) :
  (status_of (Dict d) = 200 \/ status_of (Dict d) = 500)%Z.
Proof.
  simpl. destruct (forallb _ d); auto.
Qed.

(** A dictionary with a NaN confidence is returned by the handler but not
    sent as it is. *)
Example nan_confidence_is_answered_with_500 :
  status_of (Dict (prediction_body "AI-GENERATED" S754_nan)) = 500%Z /\
  status_of (Dict (prediction_body "HUMAN" (f64_of_Z 75))) = 200%Z.
Proof. split; reflexivity. Qed.

(** X2. The prediction endpoint never lets an exception escape: every call
    returns one of five results, namely the "model not loaded" response
    (500), the "could not process" response (400), a 500 response carrying
    the text of an exception, or a dictionary with the label "HUMAN" or
    "AI-GENERATED" and a confidence.  The status is 200, 400 or 500. *)
Theorem endpoint_always_responds
    (librosa : Librosa) (srv : server) (file : UploadFile) :
  exists r,
    outcome (predict_audio librosa srv file) = Ok r /\
    endpoint_result r /\
    (status_of r = 200 \/ status_of r = 400 \/ status_of r = 500)%Z.
Proof.
  unfold predict_audio.
  destruct (model srv) as [mdl|]; simpl.
  2:{ eexists. split; [reflexivity|]. split; [constructor|auto]. }
  destruct (audio_to_spectrogram_returns librosa (read file)) as (t0 & r & Ha).
  rewrite Ha. simpl.
  destruct r as [A|]; simpl.
  2:{ eexists. split; [reflexivity|]. split; [constructor|auto]. }
  unfold call.
  destruct (mdl (add_batch_and_channel A)) as [[|[|p row] rows]|e]; simpl;
    try (eexists; split; [reflexivity|]; split; [constructor|auto]).
  unfold interpret.
  destruct (f32_lt p f32_half) eqn:L; simpl outcome.
  - eexists. split; [reflexivity|].
    split;
      [|match goal with
        | |- (status_of (Dict ?d) = _ \/ _)%Z =>
            destruct (status_of_dict_cases d) as [H|H]; rewrite H; auto
        end].
    replace (py_round _ 2) with (returned_confidence p);
      [constructor|unfold returned_confidence, interpret; rewrite L; reflexivity].
  - eexists. split; [reflexivity|].
    split;
      [|match goal with
        | |- (status_of (Dict ?d) = _ \/ _)%Z =>
            destruct (status_of_dict_cases d) as [H|H]; rewrite H; auto
        end].
    replace (py_round _ 2) with (returned_confidence p);
      [constructor|unfold returned_confidence, interpret; rewrite L; reflexivity].
Qed.

(** X3. When the model is loaded, the extractor returns an array and the
    forward pass raises with message [e], the endpoint prints the error and
    answers with status 500 and the body [{"error": e}]: the text of the
    exception goes to the client. *)
Theorem model_exception_gives_500
    (librosa : Librosa) (srv : server) (mdl : Model) (file : UploadFile)
    (t : list event) (A : ndarray) (e : string) :
  model srv = Some mdl ->
  audio_to_spectrogram librosa (read file) = (t, Ok (Some A)) ->
  mdl (add_batch_and_channel A) = Raise e ->
  outcome (predict_audio librosa srv file) =
    Ok (JSONResponse 500 [("error"%string, JString e)]) /\
  In (Print ("❌ Prediction error: " ++ e)%string)
     (trace (predict_audio librosa srv file)).
Proof.
  intros Hm Ha Hp.
  rewrite (predict_audio_model_raises librosa srv mdl file t A e Hm Ha Hp).
  simpl. split; [reflexivity|].
  apply in_or_app. right. right. left. reflexivity.
Qed.

Lemma model_exception_gives_500_witness :
  outcome (predict_audio Samples.tone_librosa {| model := Some failing_model |}
             Samples.clip) =
    Ok (JSONResponse 500
          [("error"%string,
            JString "Input 0 of layer is incompatible with the layer")]) /\
  In (Print ("❌ Prediction error: " ++
             "Input 0 of layer is incompatible with the layer")%string)
     (trace (predict_audio Samples.tone_librosa {| model := Some failing_model |}
               Samples.clip)).
Proof.
  refine (model_exception_gives_500 Samples.tone_librosa
            {| model := Some failing_model |} failing_model Samples.clip
            _ _ _ eq_refl _ eq_refl).
  vm_compute. reflexivity.
Defined.

(** X4. When the forward pass returns an empty batch, or a batch whose
    first row is empty, [model.predict(...)[0][0]] raises inside the [try]
    and the endpoint answers with status 500; no prediction is returned. *)
Theorem empty_model_output_gives_500
    (librosa : Librosa) (srv : server) (mdl : Model) (file : UploadFile)
    (t : list event) (A : ndarray) (out : list (list float32)) :
  model srv = Some mdl ->
  audio_to_spectrogram librosa (read file) = (t, Ok (Some A)) ->
  mdl (add_batch_and_channel A) = Ok out ->
  out = [] \/ (exists rows, out = [] :: rows) ->
  exists e,
    outcome (predict_audio librosa srv file) =
      Ok (JSONResponse 500 [("error"%string, JString e)]).
Proof.
  intros Hm Ha Hp Ho.
  destruct (predict_audio_empty_output librosa srv mdl file t A out Hm Ha Hp Ho)
    as [e He].
  exists e. rewrite He. reflexivity.
Qed.

Lemma empty_model_output_gives_500_witness :
  exists e,
    outcome (predict_audio Samples.tone_librosa {| model := Some empty_model |}
               Samples.clip) =
      Ok (JSONResponse 500 [("error"%string, JString e)]).
Proof.
  refine (empty_model_output_gives_500 Samples.tone_librosa
            {| model := Some empty_model |} empty_model Samples.clip
            _ _ [] eq_refl _ eq_refl (or_introl eq_refl)).
  vm_compute. reflexivity.
Defined.

(** X5. In every call of the prediction endpoint, whatever its result, the
    forward pass is run at most once; when it is run, the model is loaded,
    the extractor has returned an array, and the input of the forward pass
    is that array with shape (1, 128, 128, 1).  This also holds for the
    calls that end in a 500 response. *)
Theorem forward_pass_at_most_once
    (librosa : Librosa) (srv : server) (file : UploadFile) :
  predict_inputs (trace (predict_audio librosa srv file)) = [] \/
  exists mdl t0 A,
    model srv = Some mdl /\
    audio_to_spectrogram librosa (read file) = (t0, Ok (Some A)) /\
    predict_inputs (trace (predict_audio librosa srv file)) =
      [add_batch_and_channel A] /\
    shape (add_batch_and_channel A) = [1; 128; 128; 1]%nat.
Proof.
  unfold predict_audio.
  destruct (model srv) as [mdl|] eqn:Hm; [|left; reflexivity].
  pose proof (audio_to_spectrogram_no_predict librosa (read file)) as Hnp.
  destruct (audio_to_spectrogram_returns librosa (read file)) as (t0 & r & Ha).
  rewrite Ha in *. simpl in Hnp. simpl.
  destruct r as [A|]; simpl.
  2:{ left. unfold predict_inputs in *. rewrite flat_map_app, Hnp. reflexivity. }
  right. exists mdl, t0, A.
  split; [reflexivity|]. split; [reflexivity|].
  destruct (audio_to_spectrogram_shape librosa (read file) t0 A Ha) as [Hs _].
  split; [|unfold add_batch_and_channel; simpl; rewrite Hs; reflexivity].
  unfold call.
  destruct (mdl (add_batch_and_channel A)) as [[|[|p row] rows]|e]; simpl;
    try destruct (interpret p) as [label confidence]; simpl;
    unfold predict_inputs in *; rewrite !flat_map_app, Hnp; reflexivity.
Qed.

(** X6. Only a POST request for "/predict/" that carries a file, on a
    server whose model is loaded, has any effect: every other request that
    reaches a handler prints nothing, calls no library and runs no forward
    pass. *)
Theorem only_post_predict_has_effects
    (librosa : Librosa) (srv : server) (req : request) (m : M handler_result) :
  app librosa srv req = Some m ->
  trace m <> [] ->
  method req = "POST"%string /\
  path req = "/predict/"%string /\
  model srv <> None /\
  exists file, upload req = Some file /\ m = predict_audio librosa srv file.
Proof.
  unfold app.
  destruct (method req =? "POST")%string eqn:Em;
    destruct (path req =? "/predict/")%string eqn:Ep; simpl.
  - apply String.eqb_eq in Em, Ep.
    destruct (upload req) as [file|]; [|discriminate].
    intros H Ht. inversion H; subst m. clear H.
    repeat split; auto.
    + intros Hn. apply Ht. unfold predict_audio. rewrite Hn. reflexivity.
    + exists file. auto.
  - destruct ((method req =? "GET")%string && (path req =? "/")%string);
      [|discriminate].
    intros H Ht. inversion H; subst m. exfalso. apply Ht. reflexivity.
  - destruct ((method req =? "GET")%string && (path req =? "/")%string);
      [|discriminate].
    intros H Ht. inversion H; subst m. exfalso. apply Ht. reflexivity.
  - destruct ((method req =? "GET")%string && (path req =? "/")%string);
      [|discriminate].
    intros H Ht. inversion H; subst m. exfalso. apply Ht. reflexivity.
Qed.

Lemma only_post_predict_has_effects_witness :
  method (post_predict Samples.clip) = "POST"%string /\
  path (post_predict Samples.clip) = "/predict/"%string /\
  model Samples.loaded <> None /\
  exists file,
    upload (post_predict Samples.clip) = Some file /\
    predict_audio Samples.tone_librosa Samples.loaded Samples.clip =
      predict_audio Samples.tone_librosa Samples.loaded file.
Proof.
  refine (only_post_predict_has_effects Samples.tone_librosa Samples.loaded
            (post_predict Samples.clip)
            (predict_audio Samples.tone_librosa Samples.loaded Samples.clip)
            eq_refl _).
  vm_compute. discriminate.
Defined.

(** X7. Startup never raises, whatever the loader does: it calls
    [load_model] exactly once, on "Promodel.keras", and leaves [model] at
    the loaded model when the call returns one and at [None] when the call
    raises. *)
Theorem startup_always_completes (load_model : Loader) :
  exists t srv,
    startup load_model = (t, Ok srv) /\
    filter is_library_call t = [LoadModel "Promodel.keras"] /\
    match load_model "Promodel.keras"%string with
    | Ok m => model srv = Some m
    | Raise _ => model srv = None
    end.
Proof.
  unfold startup, call. simpl.
  destruct (load_model "Promodel.keras"%string) as [m|e]; simpl;
    eexists; eexists; split; try reflexivity; split; reflexivity.
Qed.

(** X8. A model output that is not a number of the float32 format is not
    rejected: NaN is below no threshold and gets the label "AI-GENERATED",
    and for NaN and for both infinities the returned confidence is itself
    NaN or infinite. *)
Theorem non_finite_output_gives_non_finite_confidence (p : float32) :
  is_finite p = false ->
  is_finite (returned_confidence p) = false /\
  (is_nan p = true -> fst (interpret p) = "AI-GENERATED"%string).
Proof.
  destruct p as [s|[|]| |s m e]; try discriminate; intros _;
    split; try reflexivity; discriminate.
Qed.

Lemma non_finite_output_gives_non_finite_confidence_witness :
  is_finite (returned_confidence S754_nan) = false /\
  (is_nan S754_nan = true -> fst (interpret S754_nan) = "AI-GENERATED"%string).
Proof.
  exact (non_finite_output_gives_non_finite_confidence S754_nan eq_refl).
Defined.

(** * Further properties of the extractor *)

Section ResizeFacts.

Lemma nth_error_concat_repeat (A : Type) (l : list A) (k i : nat) :
  (i < k * List.length l)%nat ->
  nth_error (List.concat (repeat l k)) i = nth_error l (i mod List.length l).
Proof.
  revert i. induction k as [|k IH]; intros i Hi; simpl in *; [lia|].
  assert (Hl : List.length l <> 0%nat) by lia.
  destruct (Nat.lt_ge_cases i (List.length l)) as [L|L].
  - rewrite nth_error_app1 by exact L. rewrite Nat.mod_small by exact L. reflexivity.
  - rewrite nth_error_app2 by exact L. rewrite IH by lia.
    f_equal.
    replace i with ((i - List.length l) + 1 * List.length l)%nat at 2 by lia.
    rewrite Nat.Div0.mod_add. reflexivity.
Qed.

(** [np.resize] copies the flattened array cyclically: entry [i] of the
    result is entry [i mod n] of the source. *)
Lemma np_resize_nth (a : ndarray) (sh : list nat) (i : nat) :
  data a <> [] ->
  (i < size_of_shape sh)%nat ->
  nth_error (data (np_resize a sh)) i =
    nth_error (data a) (i mod List.length (data a)).
Proof.
  intros Hne Hi. unfold np_resize.
  assert (Hl : List.length (data a) <> 0%nat).
  { destruct (data a); [congruence|simpl; lia]. }
  destruct ((List.length (data a) =? 0)%nat || (size_of_shape sh =? 0)%nat) eqn:E.
  - apply orb_true_iff in E. destruct E as [E|E]; apply Nat.eqb_eq in E; lia.
  - simpl. rewrite nth_error_firstn.
    replace (i <? size_of_shape sh)%nat with true
      by (symmetry; apply Nat.ltb_lt; exact Hi).
    apply nth_error_concat_repeat.
    pose proof (ceil_div_covers (size_of_shape sh) (List.length (data a))).
    lia.
Qed.

End ResizeFacts.

Section NormalizeFacts.

Local Open Scope Z_scope.

Lemma f32_div_self (s : bool) (m : positive) (e : Z) :
  f32_div (S754_finite s m e) (S754_finite s m e) = f32_one.
Proof.
  unfold f32_div, SFdiv, SFdiv_core_binary.
  rewrite !Z.sub_diag.
  change (Z.min (fexp prec32 emax32 0) 0) with (-24).
  change (0 - -24) with 24.
  rewrite Z.shiftl_mul_pow2 by lia.
  pose proof (Z.div_eucl_eq (Zpos m * 2 ^ 24) (Zpos m) ltac:(lia)) as E.
  pose proof (Z.mod_mul (2 ^ 24) (Zpos m) ltac:(lia)) as Hr.
  pose proof (Z.div_mul (2 ^ 24) (Zpos m) ltac:(lia)) as Hq.
  unfold Z.modulo, Z.div in Hr, Hq.
  rewrite (Z.mul_comm (2 ^ 24)) in Hr, Hq.
  destruct (Z.div_eucl (Zpos m * 2 ^ 24) (Zpos m)) as [q r].
  simpl in Hr, Hq. subst q r.
  replace (xorb s s) with false by (destruct s; reflexivity).
  unfold new_location, new_location_even, new_location_odd.
  destruct (Z.even (Zpos m)); reflexivity.
Qed.

Lemma f32_sub_self_finite (x : float32) :
  is_finite x = true -> f32_sub x x = S754_zero false.
Proof.
  destruct x as [[|]|[|]| |s m e]; try discriminate; intros _; try reflexivity.
  unfold f32_sub, SFsub. rewrite Z.sub_diag. reflexivity.
Qed.

Lemma f32_sub_finite_inv (x y : float32) (s : bool) (m : positive) (e : Z) :
  f32_sub x y = S754_finite s m e -> is_finite x = true /\ is_finite y = true.
Proof.
  destruct x as [[|]|[|]| |sx mx ex], y as [[|]|[|]| |sy my ey];
    simpl; intros H; try discriminate; auto.
Qed.

Lemma fold_left_choice (f : float32 -> float32 -> float32) (xs : list float32)
    (x : float32) :
  (forall a b, f a b = a \/ f a b = b) ->
  In (fold_left f xs x) (x :: xs).
Proof.
  intros Hf. revert x. induction xs as [|y ys IH]; intros x; simpl.
  - left. reflexivity.
  - destruct (IH (f x y)) as [E|E].
    + destruct (Hf x y) as [H|H]; rewrite H in E at 1; [left|right; left]; exact E.
    + right. right. exact E.
Qed.

Lemma np_min_in (a : ndarray) (lo : float32) :
  np_min a = Some lo -> In lo (data a).
Proof.
  unfold np_min. destruct (data a) as [|x xs]; [discriminate|].
  intros H. inversion H. apply fold_left_choice.
  intros u v. unfold np_minimum. destruct (_ || _); auto.
Qed.

Lemma np_max_in (a : ndarray) (hi : float32) :
  np_max a = Some hi -> In hi (data a).
Proof.
  unfold np_max. destruct (data a) as [|x xs]; [discriminate|].
  intros H. inversion H. apply fold_left_choice.
  intros u v. unfold np_maximum. destruct (_ || _); auto.
Qed.

Variable librosa : Librosa.

(** The run of the extractor on a file for which librosa gives the decibel
    spectrogram [S_DB]. *)
Lemma audio_to_spectrogram_of_pipeline (file_bytes : bytes) (S_DB : ndarray) :
  librosa_pipeline librosa file_bytes = Ok S_DB ->
  exists lo hi,
    np_min (np_resize S_DB [128; 128]%nat) = Some lo /\
    np_max (np_resize S_DB [128; 128]%nat) = Some hi /\
    outcome (audio_to_spectrogram librosa file_bytes) =
      Ok (Some (normalized S_DB lo hi)).
Proof.
  unfold librosa_pipeline, audio_to_spectrogram, min_max_normalize, call.
  destruct (load librosa file_bytes) as [[y sr]|e]; simpl; [|discriminate].
  destruct (melspectrogram librosa y sr 128) as [S|e]; simpl; [|discriminate].
  intros H. rewrite H. simpl.
  destruct (np_min_resize S_DB [128; 128]%nat size_128_128_pos) as [lo Hlo].
  destruct (np_max_resize S_DB [128; 128]%nat size_128_128_pos) as [hi Hhi].
  exists lo, hi. rewrite Hlo, Hhi. simpl. auto.
Qed.

Lemma normalized_data (S_DB : ndarray) (lo hi : float32) :
  data (normalized S_DB lo hi) =
    map (normalize_entry lo hi) (data (np_resize S_DB [128; 128]%nat)).
Proof.
  unfold normalized, np_div_scalar, np_sub_scalar, normalize_entry. simpl.
  apply map_map.
Qed.

End NormalizeFacts.

(** X9. The spectrogram is not rescaled to 128 by 128: [np.resize] reads
    the flattened decibel spectrogram cyclically.  Entry [i] of the result
    is the normalized entry [i mod n] of the [n] flattened values, so a
    spectrogram with more than 128 * 128 values is cut after the first
    128 * 128 of them and a shorter one is repeated. *)
Theorem resize_reads_the_spectrogram_cyclically
    (librosa : Librosa) (file_bytes : bytes) (S_DB : ndarray) (i : nat) :
  librosa_pipeline librosa file_bytes = Ok S_DB ->
  data S_DB <> [] ->
  (i < 128 * 128)%nat ->
  exists lo hi A,
    np_min (np_resize S_DB [128; 128]%nat) = Some lo /\
    np_max (np_resize S_DB [128; 128]%nat) = Some hi /\
    outcome (audio_to_spectrogram librosa file_bytes) = Ok (Some A) /\
    nth_error (data A) i =
      option_map (normalize_entry lo hi)
                 (nth_error (data S_DB) (i mod List.length (data S_DB))).
Proof.
  intros Hp Hne Hi.
  destruct (audio_to_spectrogram_of_pipeline librosa file_bytes S_DB Hp)
    as (lo & hi & Hlo & Hhi & Ha).
  exists lo, hi, (normalized S_DB lo hi).
  repeat (split; [assumption|]).
  rewrite normalized_data, nth_error_map.
  rewrite np_resize_nth; [reflexivity|exact Hne|].
  rewrite size_128_128. exact Hi.
Qed.

Lemma resize_reads_the_spectrogram_cyclically_witness :
  exists lo hi A,
    np_min (np_resize Samples.two_level_db [128; 128]%nat) = Some lo /\
    np_max (np_resize Samples.two_level_db [128; 128]%nat) = Some hi /\
    outcome (audio_to_spectrogram Samples.tone_librosa Samples.wav_header) =
      Ok (Some A) /\
    nth_error (data A) 300 =
      option_map (normalize_entry lo hi)
                 (nth_error (data Samples.two_level_db)
                            (300 mod List.length (data Samples.two_level_db))).
Proof.
  refine (resize_reads_the_spectrogram_cyclically Samples.tone_librosa
            Samples.wav_header Samples.two_level_db 300 eq_refl _ _).
  - discriminate.
  - lia.
Defined.

(** X10. When the range [max - min] of the resized decibel spectrogram is
    a finite number other than zero, the normalization attains both ends:
    the entries at the minimum become 0 and the entries at the maximum
    become exactly 1. *)
Theorem normalization_attains_0_and_1
    (librosa : Librosa) (file_bytes : bytes) (S_DB : ndarray)
    (lo hi : float32) (s : bool) (m : positive) (e : Z) :
  librosa_pipeline librosa file_bytes = Ok S_DB ->
  np_min (np_resize S_DB [128; 128]%nat) = Some lo ->
  np_max (np_resize S_DB [128; 128]%nat) = Some hi ->
  f32_sub hi lo = S754_finite s m e ->
  exists A,
    outcome (audio_to_spectrogram librosa file_bytes) = Ok (Some A) /\
    In (S754_zero s) (data A) /\
    In (f32_of_Z 1) (data A).
Proof.
  intros Hp Hlo Hhi Hd.
  destruct (audio_to_spectrogram_of_pipeline librosa file_bytes S_DB Hp)
    as (lo' & hi' & Hlo' & Hhi' & Ha).
  rewrite Hlo in Hlo'. rewrite Hhi in Hhi'.
  inversion Hlo'; inversion Hhi'; subst lo' hi'.
  exists (normalized S_DB lo hi). split; [exact Ha|].
  rewrite normalized_data.
  destruct (f32_sub_finite_inv hi lo s m e Hd) as [_ Hfin].
  split.
  - apply in_map_iff. exists lo. split; [|apply np_min_in; exact Hlo].
    unfold normalize_entry. rewrite Hd, (f32_sub_self_finite lo Hfin).
    reflexivity.
  - apply in_map_iff. exists hi. split; [|apply np_max_in; exact Hhi].
    unfold normalize_entry. rewrite Hd. apply f32_div_self.
Qed.

Lemma normalization_attains_0_and_1_witness :
  exists A,
    outcome (audio_to_spectrogram Samples.tone_librosa Samples.wav_header) =
      Ok (Some A) /\
    In (S754_zero false) (data A) /\
    In (f32_of_Z 1) (data A).
Proof.
  refine (normalization_attains_0_and_1 Samples.tone_librosa Samples.wav_header
            Samples.two_level_db (f32_of_Z (-80)) (f32_of_Z 0)
            false 10485760 (-17) eq_refl _ _ _);
    vm_compute; reflexivity.
Defined.

(** * Rounding to float32, and the range of the normalization *)

Section RoundingFacts.

Local Open Scope Z_scope.

Lemma div_half_even_exact (k b : Z) : 0 < b -> div_half_even (k * b) b = k.
Proof.
  intros Hb. unfold div_half_even.
  rewrite Z.div_mul, Z.mod_mul by lia.
  replace (2 * 0 ?= b) with Lt by (symmetry; apply Z.compare_lt_iff; lia).
  reflexivity.
Qed.

Lemma div_half_even_mono (a a' b : Z) :
  0 < b -> a <= a' -> div_half_even a b <= div_half_even a' b.
Proof.
  intros Hb Ha. unfold div_half_even.
  pose proof (Z.div_mod a b ltac:(lia)) as E.
  pose proof (Z.mod_pos_bound a b Hb) as R.
  pose proof (Z.div_mod a' b ltac:(lia)) as E'.
  pose proof (Z.mod_pos_bound a' b Hb) as R'.
  set (q := a / b) in *. set (r := a mod b) in *.
  set (q' := a' / b) in *. set (r' := a' mod b) in *.
  assert (Hq : q <= q') by nia.
  assert (Hr : q = q' -> r <= r') by nia.
  destruct (Z.eq_dec q q') as [Eq|Nq].
  - pose proof (Hr Eq) as Hrr.
    assert (Ev : Z.even q' = Z.even q) by congruence. rewrite Ev.
    destruct (Z.compare_spec (2 * r) b), (Z.compare_spec (2 * r') b),
      (Z.even q); lia.
  - destruct (Z.compare_spec (2 * r) b), (Z.compare_spec (2 * r') b),
      (Z.even q), (Z.even q'); lia.
Qed.

Lemma div_half_even_scale (a b c : Z) :
  0 < b -> 0 < c -> div_half_even (a * c) (b * c) = div_half_even a b.
Proof.
  intros Hb Hc. unfold div_half_even.
  rewrite Z.div_mul_cancel_r by lia.
  rewrite Z.mul_mod_distr_r by lia.
  replace (2 * (a mod b * c) ?= b * c) with (2 * (a mod b) ?= b); [reflexivity|].
  replace (2 * (a mod b * c)) with (2 * (a mod b) * c) by lia.
  destruct (Z.compare_spec (2 * (a mod b)) b) as [E|E|E]; symmetry.
  - apply Z.compare_eq_iff. rewrite E. reflexivity.
  - apply Z.compare_lt_iff. apply Z.mul_lt_mono_pos_r; assumption.
  - apply Z.compare_gt_iff. apply Z.mul_lt_mono_pos_r; assumption.
Qed.

Lemma shr_1_record (m : Z) (r s : bool) :
  0 <= m ->
  shr_1 (Build_shr_record m r s) = Build_shr_record (m / 2) (Z.odd m) (r || s).
Proof.
  intros Hm. destruct m as [|[p|p|]|p]; try lia; cbn [shr_1].
  - reflexivity.
  - replace (Zpos p~1 / 2) with (Zpos p); [reflexivity|].
    apply Z.div_unique with 1; lia.
  - replace (Zpos p~0 / 2) with (Zpos p); [reflexivity|].
    apply Z.div_unique with 0; lia.
  - reflexivity.
Qed.

(** The record after [n] right shifts of [m]: quotient, round bit and
    sticky bit. *)
Lemma shr_iter_record (n : nat) (m : Z) :
  0 <= m ->
  Nat.iter (S n) shr_1 (Build_shr_record m false false) =
    Build_shr_record (m / 2 ^ Z.of_nat (S n))
                     (Z.odd (m / 2 ^ Z.of_nat n))
                     (negb (m mod 2 ^ Z.of_nat n =? 0)).
Proof.
  intros Hm. induction n as [|n IH].
  - unfold Nat.iter. cbn [nat_rect]. change (2 ^ Z.of_nat 0) with 1.
    rewrite Z.div_1_r, Z.mod_1_r. change (2 ^ Z.of_nat 1) with 2.
    rewrite shr_1_record by exact Hm. reflexivity.
  - rewrite Nat.iter_succ, IH.
    set (k := Z.of_nat n).
    assert (Hk : 0 <= k) by (unfold k; lia).
    replace (Z.of_nat (S n)) with (k + 1) by (unfold k; lia).
    replace (Z.of_nat (S (S n))) with (k + 1 + 1) by (unfold k; lia).
    assert (P : 0 < 2 ^ k) by (apply Z.pow_pos_nonneg; lia).
    assert (E1 : 2 ^ (k + 1) = 2 ^ k * 2) by (rewrite Z.pow_add_r by lia; reflexivity).
    assert (E2 : 2 ^ (k + 1 + 1) = 2 ^ (k + 1) * 2) by (rewrite (Z.pow_add_r 2 (k + 1) 1) by lia; reflexivity).
    set (q := m / 2 ^ (k + 1)).
    assert (Hq : 0 <= q) by (apply Z.div_pos; lia).
    assert (Hdiv : m / 2 ^ (k + 1 + 1) = q / 2).
    { rewrite E2. unfold q. rewrite Z.div_div by lia. reflexivity. }
    assert (Hmod : m mod 2 ^ (k + 1) = 2 ^ k * ((m / 2 ^ k) mod 2) + m mod 2 ^ k).
    { rewrite E1. rewrite Z.rem_mul_r by lia. lia. }
    assert (Hsticky : (Z.odd (m / 2 ^ k) || negb (m mod 2 ^ k =? 0)) =
                      negb (m mod 2 ^ (k + 1) =? 0)).
    { rewrite Hmod.
      pose proof (Z.mod_pos_bound m (2 ^ k) P) as B.
      rewrite (Zmod_odd (m / 2 ^ k)).
      destruct (Z.odd (m / 2 ^ k)); simpl.
      - symmetry. apply negb_true_iff, Z.eqb_neq. lia.
      - rewrite Z.mul_0_r, Z.add_0_l. reflexivity. }
    rewrite Hdiv, <- Hsticky.
    rewrite shr_1_record by exact Hq.
    replace (m / 2 ^ (k + 1)) with q by reflexivity. reflexivity.
Qed.

(** Shifting right by [n >= 1] bits and rounding to nearest even is the
    division by [2^n] rounded half to even. *)
Lemma shr_round_is_div_half_even (n : positive) (m : Z) :
  0 <= m ->
  let mrs := iter_pos shr_1 n (Build_shr_record m false false) in
  round_nearest_even (shr_m mrs) (loc_of_shr_record mrs) =
    div_half_even m (2 ^ Zpos n).
Proof.
  intros Hm mrs. unfold mrs. rewrite iter_pos_nat.
  destruct (Pos.to_nat n) as [|k] eqn:Ek; [lia|].
  rewrite shr_iter_record by exact Hm.
  assert (En : Zpos n = Z.of_nat k + 1) by lia.
  rewrite En. replace (Z.of_nat (S k)) with (Z.of_nat k + 1) by lia.
  set (j := Z.of_nat k). assert (Hj : 0 <= j) by (unfold j; lia).
  assert (P : 0 < 2 ^ j) by (apply Z.pow_pos_nonneg; lia).
  assert (E1 : 2 ^ (j + 1) = 2 ^ j * 2) by (rewrite Z.pow_add_r by lia; reflexivity).
  unfold div_half_even.
  assert (Hmod : m mod 2 ^ (j + 1) = 2 ^ j * ((m / 2 ^ j) mod 2) + m mod 2 ^ j).
  { rewrite E1. rewrite Z.rem_mul_r by lia. lia. }
  pose proof (Z.mod_pos_bound m (2 ^ j) P) as B.
  rewrite Hmod, (Zmod_odd (m / 2 ^ j)).
  cbn [shr_m loc_of_shr_record].
  destruct (Z.odd (m / 2 ^ j)); destruct (Z.eqb_spec (m mod 2 ^ j) 0) as [Z0|Z0];
    cbn [negb round_nearest_even].
  - replace (2 * (2 ^ j * 1 + m mod 2 ^ j) ?= 2 ^ (j + 1)) with Eq; [reflexivity|].
    symmetry. apply Z.compare_eq_iff. lia.
  - replace (2 * (2 ^ j * 1 + m mod 2 ^ j) ?= 2 ^ (j + 1)) with Gt; [reflexivity|].
    symmetry. apply Z.compare_gt_iff. lia.
  - replace (2 * (2 ^ j * 0 + m mod 2 ^ j) ?= 2 ^ (j + 1)) with Lt; [reflexivity|].
    symmetry. apply Z.compare_lt_iff. lia.
  - replace (2 * (2 ^ j * 0 + m mod 2 ^ j) ?= 2 ^ (j + 1)) with Lt; [reflexivity|].
    symmetry. apply Z.compare_lt_iff. lia.
Qed.

Lemma round_aux_noshift_or_inf (prec emax : Z) (s : bool) (m : positive) (e : Z) :
  fexp prec emax (Zpos (digits2_pos m) + e) = e ->
  binary_round_aux prec emax s (Zpos m) e loc_Exact =
    if e <=? emax - prec then S754_finite s m e else S754_infinity s.
Proof.
  intros Hf. unfold binary_round_aux, shr_fexp.
  cbn [Zdigits2 shr_record_of_loc]. rewrite Hf, Z.sub_diag.
  cbn [shr shr_m loc_of_shr_record round_nearest_even Zdigits2 shr_record_of_loc].
  rewrite Hf, Z.sub_diag. cbn [shr shr_m]. reflexivity.
Qed.

Lemma round_aux_shift32_exact (s : bool) (m : positive) (e n : Z) :
  n = Zpos (digits2_pos m) - 24 ->
  0 < n ->
  -149 <= e + n ->
  let u := div_half_even (Zpos m) (2 ^ n) in
  2 ^ 23 <= u <= 2 ^ 24 /\
  binary_round_aux prec32 emax32 s (Zpos m) e loc_Exact =
    if u <? 2 ^ 24 then
      if e + n <=? 104 then S754_finite s (Z.to_pos u) (e + n)
      else S754_infinity s
    else
      if e + n + 1 <=? 104 then S754_finite s (Z.to_pos (2 ^ 23)) (e + n + 1)
      else S754_infinity s.
Proof.
  intros Hn Hpos Hlo u.
  pose proof (digits2_pos_bounds m) as Hd.
  assert (P : 0 < 2 ^ n) by (apply Z.pow_pos_nonneg; lia).
  assert (Hu : 2 ^ 23 <= u <= 2 ^ 24).
  { replace (Zpos (digits2_pos m)) with (n + 24) in Hd by lia.
    replace (n + 24 - 1) with (23 + n) in Hd by lia.
    rewrite (Z.pow_add_r 2 23 n), (Z.pow_add_r 2 n 24) in Hd by lia.
    apply div_half_even_bounds; lia. }
  split; [exact Hu|].
  unfold binary_round_aux, shr_fexp at 1.
  cbn [Zdigits2 shr_record_of_loc].
  rewrite fexp32_normal by lia.
  replace (Zpos (digits2_pos m) + e - 24 - e) with n by lia.
  destruct n as [|pn|pn]; try lia.
  cbn [shr].
  rewrite (shr_round_is_div_half_even pn (Zpos m)) by lia.
  fold u.
  destruct u as [|pu|pu] eqn:Eu; try lia.
  unfold shr_fexp. cbn [Zdigits2 shr_record_of_loc].
  destruct (Z.ltb_spec (Zpos pu) (2 ^ 24)) as [L|L].
  - rewrite (digits2_pos_unique pu 24) by (simpl Z.sub; lia).
    rewrite fexp32_normal by lia.
    replace (24 + (e + Zpos pn) - 24 - (e + Zpos pn)) with 0 by lia.
    cbn [shr shr_m]. reflexivity.
  - assert (Zpos pu = 2 ^ 24) as Epu by lia.
    rewrite (digits2_pos_unique pu 25) by (simpl Z.sub; lia).
    rewrite fexp32_normal by lia.
    replace (25 + (e + Zpos pn) - 24 - (e + Zpos pn)) with 1 by lia.
    rewrite Epu. reflexivity.
Qed.

Lemma log2_of_scaled (D : positive) (k : Z) :
  0 <= k ->
  Z.log2 (Zpos D * 2 ^ k) + 1 = Zpos (digits2_pos D) + k.
Proof.
  intros Hk. pose proof (digits2_pos_bounds D) as Hd.
  assert (P : 0 < 2 ^ k) by (apply Z.pow_pos_nonneg; lia).
  rewrite (Z.log2_unique (Zpos D * 2 ^ k) (Zpos (digits2_pos D) - 1 + k)); try lia.
  replace (Z.succ (Zpos (digits2_pos D) - 1 + k)) with (Zpos (digits2_pos D) + k) by lia.
  rewrite !Z.pow_add_r by lia.
  split; [apply Z.mul_le_mono_nonneg_r; lia|apply Z.mul_lt_mono_pos_r; lia].
Qed.

Lemma pow2_lt (a b : Z) : 0 <= a -> a < b -> 2 ^ a < 2 ^ b.
Proof. intros. apply Z.pow_lt_mono_r; lia. Qed.

Lemma pow2_le (a b : Z) : 0 <= a -> a <= b -> 2 ^ a <= 2 ^ b.
Proof. intros. apply Z.pow_le_mono_r; lia. Qed.

(** A canonical mantissa at exponent [f]: the result of rounding is a
    float32 with that many units, unless the exponent is too large. *)
Lemma canonical_rounds_to (M : positive) (f : Z) :
  -149 <= f ->
  fexp prec32 emax32 (Zpos (digits2_pos M) + f) = f ->
  rounds_to (Zpos M * 2 ^ (f + 149))
    (if f <=? 104 then S754_finite false M f else S754_infinity false).
Proof.
  intros Hf Hc.
  pose proof (digits2_pos_bounds M) as Hd.
  set (d := Zpos (digits2_pos M)) in *.
  assert (Hdpos : 0 < d) by (unfold d; lia).
  assert (Hfexp : Z.max (d + f - 24) (-149) = f)
    by (unfold fexp, emin, prec32, emax32 in Hc; lia).
  assert (P : 0 < 2 ^ (f + 149)) by (apply Z.pow_pos_nonneg; lia).
  assert (Hn : Z.max 0 (Z.log2 (Zpos M * 2 ^ (f + 149)) + 1 - 24) = f + 149).
  { rewrite log2_of_scaled by lia. fold d. lia. }
  assert (Hr : rnd32 (Zpos M * 2 ^ (f + 149)) = Zpos M * 2 ^ (f + 149)).
  { unfold rnd32. rewrite Hn. rewrite div_half_even_exact by exact P. reflexivity. }
  assert (Lo : 2 ^ (d - 1 + (f + 149)) <= Zpos M * 2 ^ (f + 149)).
  { rewrite (Z.pow_add_r 2 (d - 1) (f + 149)) by lia.
    apply Z.mul_le_mono_nonneg_r; lia. }
  assert (Hi : Zpos M * 2 ^ (f + 149) < 2 ^ (d + (f + 149))).
  { rewrite (Z.pow_add_r 2 d (f + 149)) by lia.
    apply Z.mul_lt_mono_pos_r; lia. }
  unfold rounds_to. rewrite Hr.
  destruct (Z.leb_spec f 104) as [L|L].
  - left. split.
    + eapply Z.lt_le_trans; [exact Hi|]. apply pow2_le; lia.
    + exists M, f. split; [reflexivity|]. split; [|reflexivity].
      apply valid32_intro; [fold d; exact Hfexp|exact L].
  - right. split; [|reflexivity].
    eapply Z.le_trans; [|exact Lo]. apply pow2_le; lia.
Qed.

Lemma binary_round_units (D : positive) (e : Z) :
  -149 <= e ->
  rounds_to (Zpos D * 2 ^ (e + 149)) (binary_round prec32 emax32 false D e).
Proof.
  intros He.
  pose proof (digits2_pos_bounds D) as Hd.
  set (d := Zpos (digits2_pos D)) in *.
  assert (Hdpos : 0 < d) by (unfold d; lia).
  unfold binary_round, shl_align. fold d.
  assert (Hf : fexp prec32 emax32 (d + e) = Z.max (d + e - 24) (-149))
    by (unfold fexp, emin, prec32, emax32; lia).
  set (f := fexp prec32 emax32 (d + e)) in *.
  destruct (f - e) as [|k|k] eqn:Ek.
  - (* no shift *)
    assert (f = e) by lia.
    rewrite round_aux_noshift_or_inf by (fold d; fold f; lia).
    apply canonical_rounds_to; [lia|fold d; fold f; lia].
  - (* the mantissa has more than 24 bits *)
    assert (Hk : Zpos k = d - 24) by lia.
    destruct (round_aux_shift32_exact false D e (Zpos k)) as [Hu ->];
      try (fold d; lia).
    set (u := div_half_even (Zpos D) (2 ^ Zpos k)) in *.
    assert (P1 : 0 < 2 ^ Zpos k) by (apply Z.pow_pos_nonneg; lia).
    assert (P2 : 0 < 2 ^ (e + 149)) by (apply Z.pow_pos_nonneg; lia).
    assert (Hn : Z.max 0 (Z.log2 (Zpos D * 2 ^ (e + 149)) + 1 - 24) = Zpos k + (e + 149)).
    { rewrite log2_of_scaled by lia. fold d. lia. }
    assert (Hr : rnd32 (Zpos D * 2 ^ (e + 149)) = u * 2 ^ (f + 149)).
    { unfold rnd32. rewrite Hn.
      rewrite (Z.pow_add_r 2 (Zpos k) (e + 149)) by lia.
      rewrite div_half_even_scale by lia. fold u.
      rewrite <- Z.pow_add_r by lia. do 2 f_equal. lia. }
    assert (Ef : e + Zpos k = f) by lia.
    assert (P3 : 0 < 2 ^ (f + 149)) by (apply Z.pow_pos_nonneg; lia).
    unfold rounds_to. rewrite Hr, Ef.
    assert (E24 : 2 ^ 24 * 2 ^ (f + 149) = 2 ^ (f + 173)).
    { rewrite <- Z.pow_add_r by lia. f_equal. lia. }
    assert (E23 : 2 ^ 23 * 2 ^ (f + 149) = 2 ^ (f + 172)).
    { rewrite <- Z.pow_add_r by lia. f_equal. lia. }
    destruct (Z.ltb_spec u (2 ^ 24)) as [L|L].
    + destruct (Z.leb_spec f 104) as [L2|L2].
      * left. split.
        -- assert (u * 2 ^ (f + 149) < 2 ^ 24 * 2 ^ (f + 149))
             by (apply Z.mul_lt_mono_pos_r; lia).
           assert (2 ^ (f + 173) <= 2 ^ 277) by (apply pow2_le; lia). lia.
        -- exists (Z.to_pos u), f. split; [reflexivity|]. split.
           ++ apply valid32_intro; [|exact L2].
              rewrite (digits2_pos_unique (Z.to_pos u) 24)
                by (rewrite Z2Pos.id by lia; simpl Z.sub; lia).
              lia.
           ++ cbn [units cond_Zopp]. rewrite Z2Pos.id by lia. reflexivity.
      * right. split; [|reflexivity].
        assert (2 ^ 23 * 2 ^ (f + 149) <= u * 2 ^ (f + 149))
          by (apply Z.mul_le_mono_nonneg_r; lia).
        assert (2 ^ 277 <= 2 ^ (f + 172)) by (apply pow2_le; lia). lia.
    + assert (Eu : u = 2 ^ 24) by lia. rewrite Eu, E24.
      destruct (Z.leb_spec (f + 1) 104) as [L2|L2].
      * left. split; [apply pow2_lt; lia|].
        exists (Z.to_pos (2 ^ 23)), (f + 1). split; [reflexivity|]. split.
        -- apply valid32_intro; [|exact L2].
           change (Zpos (digits2_pos (Z.to_pos (2 ^ 23)))) with 24. lia.
        -- cbn [units cond_Zopp]. change (Zpos (Z.to_pos (2 ^ 23))) with (2 ^ 23).
           rewrite <- Z.pow_add_r by lia. f_equal. lia.
      * right. split; [apply pow2_le; lia|reflexivity].
  - (* the mantissa is shifted left to the canonical exponent *)
    assert (Hk : Zpos k = e - f) by lia.
    assert (Hdig : Zpos (digits2_pos (Pos.iter xO D k)) = d + Zpos k).
    { apply digits2_pos_unique. rewrite iter_xO.
      assert (0 < 2 ^ Zpos k) by (apply Z.pow_pos_nonneg; lia).
      replace (d + Zpos k - 1) with (d - 1 + Zpos k) by lia.
      rewrite (Z.pow_add_r 2 (d - 1) (Zpos k)), (Z.pow_add_r 2 d (Zpos k)) by lia.
      split; [apply Z.mul_le_mono_nonneg_r; lia|apply Z.mul_lt_mono_pos_r; lia]. }
    assert (Hc : fexp prec32 emax32 (Zpos (digits2_pos (Pos.iter xO D k)) + f) = f).
    { rewrite Hdig. replace (d + Zpos k + f) with (d + e) by lia. reflexivity. }
    rewrite round_aux_noshift_or_inf by exact Hc.
    replace (Zpos D * 2 ^ (e + 149)) with (Zpos (Pos.iter xO D k) * 2 ^ (f + 149)).
    + apply canonical_rounds_to; [lia|exact Hc].
    + rewrite iter_xO, <- Z.mul_assoc, <- Z.pow_add_r by lia. do 2 f_equal. lia.
Qed.

Lemma units_pos (m : positive) (e : Z) :
  -149 <= e -> 0 < Zpos m * 2 ^ (e + 149).
Proof.
  intros. apply Z.mul_pos_pos; [lia|apply Z.pow_pos_nonneg; lia].
Qed.

(** Among canonical positive numbers the one with the smaller exponent is
    the smaller one. *)
Lemma canonical_exponent_order (m1 : positive) (e1 : Z) (m2 : positive) (e2 : Z) :
  is_float32 (S754_finite false m1 e1) = true ->
  is_float32 (S754_finite false m2 e2) = true ->
  e1 < e2 ->
  Zpos m1 * 2 ^ (e1 + 149) < Zpos m2 * 2 ^ (e2 + 149).
Proof.
  intros V1 V2 L. apply valid32_finite in V1, V2.
  pose proof (digits2_pos_bounds m1) as B1.
  pose proof (digits2_pos_bounds m2) as B2.
  assert (D2 : Zpos (digits2_pos m2) = 24) by lia.
  rewrite D2 in B2. simpl Z.sub in B2.
  assert (M1 : Zpos m1 < 2 ^ 24).
  { eapply Z.lt_le_trans; [apply B1|]. apply pow2_le; lia. }
  assert (P1 : 0 < 2 ^ (e1 + 149)) by (apply Z.pow_pos_nonneg; lia).
  assert (P2 : 0 < 2 ^ (e2 + 149)) by (apply Z.pow_pos_nonneg; lia).
  assert (A : Zpos m1 * 2 ^ (e1 + 149) < 2 ^ 24 * 2 ^ (e1 + 149))
    by (apply Z.mul_lt_mono_pos_r; lia).
  assert (B : 2 ^ 23 * 2 ^ (e2 + 149) <= Zpos m2 * 2 ^ (e2 + 149))
    by (apply Z.mul_le_mono_nonneg_r; lia).
  assert (C : 2 ^ 24 * 2 ^ (e1 + 149) <= 2 ^ 23 * 2 ^ (e2 + 149)).
  { rewrite <- !Z.pow_add_r by lia. apply pow2_le; lia. }
  lia.
Qed.

Lemma canonical_compare (m1 : positive) (e1 : Z) (m2 : positive) (e2 : Z) :
  is_float32 (S754_finite false m1 e1) = true ->
  is_float32 (S754_finite false m2 e2) = true ->
  match e1 ?= e2 with
  | Lt => Lt
  | Gt => Gt
  | Eq => Zpos m1 ?= Zpos m2
  end = (Zpos m1 * 2 ^ (e1 + 149) ?= Zpos m2 * 2 ^ (e2 + 149)).
Proof.
  intros V1 V2.
  destruct (Z.compare_spec e1 e2) as [E|L|L].
  - subst e2. apply valid32_finite in V1.
    assert (P : 0 < 2 ^ (e1 + 149)) by (apply Z.pow_pos_nonneg; lia).
    destruct (Z.compare_spec (Zpos m1) (Zpos m2)) as [E|E|E]; symmetry.
    + apply Z.compare_eq_iff. rewrite E. reflexivity.
    + apply Z.compare_lt_iff. apply Z.mul_lt_mono_pos_r; lia.
    + apply Z.compare_gt_iff. apply Z.mul_lt_mono_pos_r; lia.
  - symmetry. apply Z.compare_lt_iff.
    apply canonical_exponent_order; assumption.
  - symmetry. apply Z.compare_gt_iff.
    apply canonical_exponent_order; assumption.
Qed.

Lemma is_float32_sign (s : bool) (m : positive) (e : Z) :
  is_float32 (S754_finite s m e) = is_float32 (S754_finite false m e).
Proof. reflexivity. Qed.

(** On finite float32 numbers the comparison of NumPy is the comparison of
    the values. *)
Lemma f32_le_units (x y : float32) :
  finite32 x = true -> finite32 y = true ->
  f32_le x y = (units x <=? units y).
Proof.
  unfold finite32. intros Hx Hy.
  apply andb_true_iff in Hx, Hy. destruct Hx as [Vx Fx], Hy as [Vy Fy].
  destruct x as [sx|sx| |sx mx ex]; try discriminate;
  destruct y as [sy|sy| |sy my ey]; try discriminate.
  - reflexivity.
  - rewrite is_float32_sign in Vy.
    pose proof (units_pos my ey ltac:(apply valid32_finite in Vy; lia)) as P.
    cbn [units]. unfold f32_le, SFleb, SFcompare.
    destruct sy; cbn [cond_Zopp]; symmetry;
      [apply Z.leb_gt|apply Z.leb_le]; lia.
  - rewrite is_float32_sign in Vx.
    pose proof (units_pos mx ex ltac:(apply valid32_finite in Vx; lia)) as P.
    cbn [units]. unfold f32_le, SFleb, SFcompare.
    destruct sx; cbn [cond_Zopp]; symmetry;
      [apply Z.leb_le|apply Z.leb_gt]; lia.
  - rewrite is_float32_sign in Vx, Vy.
    pose proof (units_pos mx ex ltac:(apply valid32_finite in Vx; lia)) as Px.
    pose proof (units_pos my ey ltac:(apply valid32_finite in Vy; lia)) as Py.
    pose proof (canonical_compare mx ex my ey Vx Vy) as C.
    pose proof (canonical_compare my ey mx ex Vy Vx) as C'.
    cbn [units]. unfold f32_le, SFleb, SFcompare.
    destruct sx, sy; cbn [cond_Zopp].
    + (* both negative *)
      assert (H : match ex ?= ey with
                  | Eq => CompOpp (Pos.compare_cont Eq mx my)
                  | Lt => Gt
                  | Gt => Lt
                  end =
                  CompOpp (match ex ?= ey with
                           | Lt => Lt
                           | Gt => Gt
                           | Eq => Zpos mx ?= Zpos my
                           end))
        by (destruct (ex ?= ey); reflexivity).
      rewrite H, C.
      destruct (Z.compare_spec (Zpos mx * 2 ^ (ex + 149)) (Zpos my * 2 ^ (ey + 149)));
        cbn [CompOpp]; symmetry;
        [apply Z.leb_le|apply Z.leb_gt|apply Z.leb_le]; lia.
    + symmetry. apply Z.leb_le. lia.
    + symmetry. apply Z.leb_gt. lia.
    + change (Pos.compare_cont Eq mx my) with (Zpos mx ?= Zpos my).
      rewrite C.
      destruct (Z.compare_spec (Zpos mx * 2 ^ (ex + 149)) (Zpos my * 2 ^ (ey + 149)));
        symmetry; [apply Z.leb_le|apply Z.leb_le|apply Z.leb_gt]; lia.
Qed.

Lemma rnd32_bounds (N : Z) :
  0 < N ->
  2 ^ Z.log2 N <= rnd32 N <= 2 ^ (Z.log2 N + 1).
Proof.
  intros HN. unfold rnd32.
  pose proof (Z.log2_spec N HN) as [L U].
  pose proof (Z.log2_nonneg N) as H0.
  set (l := Z.log2 N) in *.
  set (n := Z.max 0 (l + 1 - 24)).
  assert (Hn : 0 <= n <= l) by (unfold n; lia).
  assert (P : 0 < 2 ^ n) by (apply Z.pow_pos_nonneg; lia).
  assert (E1 : 2 ^ l = 2 ^ (l - n) * 2 ^ n).
  { rewrite <- Z.pow_add_r by lia. f_equal. lia. }
  assert (E2 : 2 ^ (l + 1) = 2 ^ (l + 1 - n) * 2 ^ n).
  { rewrite <- Z.pow_add_r by lia. f_equal. lia. }
  replace (Z.succ l) with (l + 1) in U by lia.
  assert (B : 2 ^ (l - n) <= div_half_even N (2 ^ n) <= 2 ^ (l + 1 - n)).
  { apply div_half_even_bounds; lia. }
  rewrite E1, E2.
  split; apply Z.mul_le_mono_nonneg_r; lia.
Qed.

Lemma rnd32_pos (N : Z) : 0 < N -> 0 < rnd32 N.
Proof.
  intros HN. pose proof (rnd32_bounds N HN) as [L _].
  assert (0 < 2 ^ Z.log2 N) by (apply Z.pow_pos_nonneg; [lia|apply Z.log2_nonneg]).
  lia.
Qed.

(** Rounding is monotone. *)
Lemma rnd32_mono (N N' : Z) : 0 < N -> N <= N' -> rnd32 N <= rnd32 N'.
Proof.
  intros HN HNN.
  pose proof (Z.log2_le_mono N N' HNN) as Hl.
  pose proof (Z.log2_nonneg N) as H0.
  destruct (Z.eq_dec (Z.max 0 (Z.log2 N + 1 - 24)) (Z.max 0 (Z.log2 N' + 1 - 24)))
    as [E|E].
  - unfold rnd32. rewrite <- E.
    set (n := Z.max 0 (Z.log2 N + 1 - 24)).
    assert (P : 0 < 2 ^ n) by (apply Z.pow_pos_nonneg; unfold n; lia).
    apply Z.mul_le_mono_nonneg_r; [lia|].
    apply div_half_even_mono; assumption.
  - assert (Hlt : Z.log2 N < Z.log2 N') by lia.
    pose proof (rnd32_bounds N HN) as [_ U].
    pose proof (rnd32_bounds N' ltac:(lia)) as [L _].
    assert (2 ^ (Z.log2 N + 1) <= 2 ^ Z.log2 N') by (apply pow2_le; lia).
    lia.
Qed.

Lemma cond_Zopp_mul (s : bool) (a c : Z) :
  cond_Zopp s a * c = cond_Zopp s (a * c).
Proof. destruct s; simpl; lia. Qed.

Lemma shl_align_units (m : positive) (e ez : Z) :
  ez <= e -> -149 <= ez ->
  Zpos (fst (shl_align m e ez)) * 2 ^ (ez + 149) = Zpos m * 2 ^ (e + 149).
Proof.
  intros H1 H2. unfold shl_align.
  destruct (ez - e) as [|k|k] eqn:Ek; cbn [fst]; try lia.
  - replace ez with e by lia. reflexivity.
  - rewrite iter_xO, <- Z.mul_assoc, <- Z.pow_add_r by lia.
    do 2 f_equal. lia.
Qed.

Lemma finite32_finite (s : bool) (m : positive) (e : Z) :
  finite32 (S754_finite s m e) = true ->
  is_float32 (S754_finite false m e) = true /\ -149 <= e <= 104.
Proof.
  unfold finite32. intros H. apply andb_true_iff in H. destruct H as [V _].
  rewrite is_float32_sign in V. split; [exact V|].
  apply valid32_finite in V. lia.
Qed.

Lemma finite_rounds_to (m : positive) (e : Z) :
  is_float32 (S754_finite false m e) = true ->
  rounds_to (Zpos m * 2 ^ (e + 149)) (S754_finite false m e).
Proof.
  intros V. pose proof V as V'. apply valid32_finite in V'.
  pose proof (canonical_rounds_to m e ltac:(lia)) as H.
  replace (e <=? 104) with true in H by (symmetry; apply Z.leb_le; lia).
  apply H. unfold fexp, emin, prec32, emax32. lia.
Qed.

(** [x - lo] for finite float32 numbers with [lo <= x]: a zero when the
    values are equal, and else the rounding of the difference. *)
Lemma f32_sub_units (x lo : float32) :
  finite32 x = true -> finite32 lo = true ->
  units lo <= units x ->
  (units x - units lo = 0 /\ exists s, f32_sub x lo = S754_zero s) \/
  (0 < units x - units lo /\ rounds_to (units x - units lo) (f32_sub x lo)).
Proof.
  intros Fx Fl Hle.
  destruct x as [sx|sx| |sx mx ex]; try discriminate;
  destruct lo as [sy|sy| |sy my ey]; try discriminate.
  - left. split; [reflexivity|]. destruct sx, sy; eexists; reflexivity.
  - destruct (finite32_finite sy my ey Fl) as [Vy Ey].
    pose proof (units_pos my ey ltac:(lia)) as P.
    cbn [units] in *. destruct sy; cbn [cond_Zopp] in *; [|lia].
    right. split; [lia|].
    replace (0 - - (Zpos my * 2 ^ (ey + 149))) with (Zpos my * 2 ^ (ey + 149)) by lia.
    apply finite_rounds_to. exact Vy.
  - destruct (finite32_finite sx mx ex Fx) as [Vx Ex].
    pose proof (units_pos mx ex ltac:(lia)) as P.
    cbn [units] in *. destruct sx; cbn [cond_Zopp] in *; [lia|].
    right. split; [lia|].
    replace (Zpos mx * 2 ^ (ex + 149) - 0) with (Zpos mx * 2 ^ (ex + 149)) by lia.
    apply finite_rounds_to. exact Vx.
  - destruct (finite32_finite sx mx ex Fx) as [Vx Ex].
    destruct (finite32_finite sy my ey Fl) as [Vy Ey].
    unfold f32_sub, SFsub.
    set (ez := Z.min ex ey).
    assert (Hez : -149 <= ez) by (unfold ez; lia).
    pose proof (shl_align_units mx ex ez ltac:(unfold ez; lia) Hez) as Ax.
    pose proof (shl_align_units my ey ez ltac:(unfold ez; lia) Hez) as Ay.
    set (Zx := cond_Zopp sx (Zpos (fst (shl_align mx ex ez)))) in *.
    set (Zy := cond_Zopp sy (Zpos (fst (shl_align my ey ez)))) in *.
    assert (P : 0 < 2 ^ (ez + 149)) by (apply Z.pow_pos_nonneg; lia).
    assert (EN : (Zx - Zy) * 2 ^ (ez + 149) =
                 units (S754_finite sx mx ex) - units (S754_finite sy my ey)).
    { cbn [units]. rewrite Z.mul_sub_distr_r. unfold Zx, Zy.
      rewrite !cond_Zopp_mul, Ax, Ay. reflexivity. }
    destruct (Zx - Zy) as [|D|D] eqn:ED.
    + left. split; [lia|]. exists false. reflexivity.
    + right. split; [lia|]. rewrite <- EN.
      unfold binary_normalize. apply binary_round_units. exact Hez.
    + exfalso. lia.
Qed.

Lemma shr_m_of_loc (q : Z) (l : location) : shr_m (shr_record_of_loc q l) = q.
Proof. destruct l as [|[| |]]; reflexivity. Qed.

Lemma Zdigits2_bounds (q : Z) :
  0 < q -> 2 ^ (Zdigits2 q - 1) <= q < 2 ^ Zdigits2 q.
Proof.
  intros H. destruct q as [|p|p]; try lia. apply digits2_pos_bounds.
Qed.

Lemma Zdigits2_nonneg (q : Z) : 0 <= Zdigits2 q.
Proof. destruct q; simpl; lia. Qed.

(** The first step of rounding: [q] loses [n1] bits and is rounded up or
    down. *)
Lemma round_aux_first_stage (s : bool) (q e : Z) (l : location) :
  0 <= q ->
  0 <= fexp prec32 emax32 (Zdigits2 q + e) - e ->
  exists u,
    (u = q / 2 ^ (fexp prec32 emax32 (Zdigits2 q + e) - e) \/
     u = q / 2 ^ (fexp prec32 emax32 (Zdigits2 q + e) - e) + 1) /\
    binary_round_aux prec32 emax32 s q e l =
      finish32 s u (fexp prec32 emax32 (Zdigits2 q + e)).
Proof.
  intros Hq Hn.
  unfold binary_round_aux, shr_fexp at 1.
  set (f := fexp prec32 emax32 (Zdigits2 q + e)) in *.
  destruct (f - e) as [|n|n] eqn:En; try lia.
  - cbn [shr].
    exists (round_nearest_even (shr_m (shr_record_of_loc q l))
              (loc_of_shr_record (shr_record_of_loc q l))).
    split.
    + change (2 ^ 0) with 1. rewrite Z.div_1_r.
      destruct (round_nearest_even_cases (shr_record_of_loc q l)) as [H|H];
        rewrite H, shr_m_of_loc; [left|right]; reflexivity.
    + replace f with e by lia. reflexivity.
  - cbn [shr].
    set (mrs := iter_pos shr_1 n (shr_record_of_loc q l)).
    exists (round_nearest_even (shr_m mrs) (loc_of_shr_record mrs)).
    split.
    + assert (E : shr_m mrs = q / 2 ^ Zpos n).
      { unfold mrs. rewrite iter_pos_nat, shr_iter_m.
        - rewrite shr_m_of_loc, positive_nat_Z. reflexivity.
        - rewrite shr_m_of_loc. exact Hq. }
      rewrite <- E. apply round_nearest_even_cases.
    + replace (e + Zpos n) with f by lia. reflexivity.
Qed.

(** A mantissa of at most 24 bits (or [2^24]) whose value at exponent [e]
    is at most 1 finishes as a float32 between 0 and 1. *)
Lemma finish32_unit_interval (u e : Z) :
  -149 <= e <= -23 ->
  0 <= u <= 2 ^ 24 ->
  u <= 2 ^ (- e) ->
  (-149 < e -> 2 ^ 23 <= u) ->
  in_unit_interval (finish32 false u e) = true.
Proof.
  intros He Hu Hv Hn.
  unfold finish32, shr_fexp. cbn [shr_record_of_loc].
  destruct u as [|p|p]; try lia.
  { destruct (fexp prec32 emax32 (Zdigits2 0 + e) - e) as [|n|n]; cbn [shr];
      try reflexivity.
    rewrite iter_pos_nat, shr_iter_m by (simpl; lia).
    cbn [shr_m]. rewrite Z.div_0_l by (apply Z.pow_nonzero; lia). reflexivity. }
  cbn [Zdigits2].
  pose proof (digits2_pos_bounds p) as Hd.
  destruct (Z_lt_le_dec (Zpos p) (2 ^ 24)) as [L|L].
  - assert (Hdig : Zpos (digits2_pos p) <= 24).
    { destruct (Z_lt_le_dec 24 (Zpos (digits2_pos p))) as [G|G]; [|exact G].
      exfalso. assert (2 ^ 24 <= 2 ^ (Zpos (digits2_pos p) - 1)) by (apply pow2_le; lia).
      lia. }
    assert (Hdig' : -149 < e -> Zpos (digits2_pos p) = 24).
    { intros G. specialize (Hn G).
      destruct (Z_lt_le_dec (Zpos (digits2_pos p)) 24) as [G'|G']; [|lia].
      exfalso. assert (2 ^ Zpos (digits2_pos p) <= 2 ^ 23) by (apply pow2_le; lia).
      lia. }
    assert (Hf : fexp prec32 emax32 (Zpos (digits2_pos p) + e) = e).
    { unfold fexp, emin, prec32, emax32. lia. }
    rewrite Hf, Z.sub_diag. cbn [shr shr_m].
    replace (e <=? emax32 - prec32) with true
      by (symmetry; apply Z.leb_le; unfold emax32, prec32; lia).
    unfold in_unit_interval, f32_zero. rewrite f32_of_Z_1. unfold f32_one, f32_le.
    replace (SFleb (S754_zero false) (S754_finite false p e)) with true by reflexivity.
    apply SFleb_finite_pos.
    destruct (Z.eq_dec e (-23)) as [->|]; [|lia].
    right. split; [reflexivity|]. simpl in Hv. lia.
  - assert (Ep : Zpos p = 2 ^ 24) by lia.
    assert (He' : e <= -24).
    { destruct (Z_lt_le_dec (-24) e) as [G|G]; [|exact G].
      exfalso. assert (2 ^ (- e) <= 2 ^ 23) by (apply pow2_le; lia). lia. }
    rewrite (digits2_pos_unique p 25) by (simpl Z.sub; lia).
    assert (Hf : fexp prec32 emax32 (25 + e) = e + 1).
    { unfold fexp, emin, prec32, emax32. lia. }
    rewrite Hf. replace (e + 1 - e) with 1 by lia.
    rewrite Ep. cbn [shr iter_pos].
    change (shr_1 {| shr_m := 2 ^ 24; shr_r := false; shr_s := false |})
      with {| shr_m := 2 ^ 23; shr_r := false; shr_s := false |}.
    cbn [shr_m]. change (2 ^ 23) with (Zpos 8388608).
    replace (e + 1 <=? emax32 - prec32) with true
      by (symmetry; apply Z.leb_le; unfold emax32, prec32; lia).
    unfold in_unit_interval, f32_zero. rewrite f32_of_Z_1. unfold f32_one, f32_le.
    replace (SFleb (S754_zero false) (S754_finite false 8388608 (e + 1)))
      with true by reflexivity.
    apply SFleb_finite_pos. lia.
Qed.

Lemma pow2_lt_inv (a b : Z) : 0 <= b -> 2 ^ a < 2 ^ b -> a < b.
Proof.
  intros Hb H. destruct (Z_lt_le_dec a b) as [L|L]; [exact L|].
  exfalso. assert (2 ^ b <= 2 ^ a) by (apply pow2_le; lia). lia.
Qed.

(** The quotient of two positive float32 numbers [a <= d] lies between 0
    and 1. *)
Lemma f32_div_unit_interval (ma : positive) (ea : Z) (md : positive) (ed : Z) :
  is_float32 (S754_finite false ma ea) = true ->
  is_float32 (S754_finite false md ed) = true ->
  Zpos ma * 2 ^ (ea + 149) <= Zpos md * 2 ^ (ed + 149) ->
  in_unit_interval (f32_div (S754_finite false ma ea) (S754_finite false md ed)) = true.
Proof.
  intros Va Vd Hle.
  destruct (Z.eq_dec (Zpos ma * 2 ^ (ea + 149)) (Zpos md * 2 ^ (ed + 149))) as [E|NE].
  { destruct (units_injective ma ea md ed Va Vd E) as [-> ->].
    rewrite f32_div_self. reflexivity. }
  assert (Hlt : Zpos ma * 2 ^ (ea + 149) < Zpos md * 2 ^ (ed + 149)) by lia.
  clear Hle NE.
  assert (Hexp : ea <= ed).
  { destruct (Z_lt_le_dec ed ea) as [L|L]; [|exact L]. exfalso.
    pose proof (canonical_exponent_order md ed ma ea Vd Va L). lia. }
  pose proof Va as Va'. pose proof Vd as Vd'.
  apply valid32_finite in Va', Vd'.
  pose proof (digits2_pos_bounds ma) as Ba.
  pose proof (digits2_pos_bounds md) as Bd.
  unfold f32_div, SFdiv, SFdiv_core_binary. cbn [Zdigits2 xorb].
  set (d1 := Zpos (digits2_pos ma)) in *.
  set (d2 := Zpos (digits2_pos md)) in *.
  assert (Hd1 : 0 < d1 <= 24) by (unfold d1; lia).
  assert (Hd2 : 0 < d2 <= 24) by (unfold d2; lia).
  set (t := d1 + ea - (d2 + ed)).
  assert (Hft : fexp prec32 emax32 t = Z.max (t - 24) (-149))
    by (unfold fexp, emin, prec32, emax32; lia).
  set (e' := Z.min (fexp prec32 emax32 t) (ea - ed)).
  assert (He' : e' <= ea - ed) by (unfold e'; lia).
  assert (He'0 : e' <= 0) by lia.
  assert (Hcase : (-149 <= t - 24 /\ e' = t - 24) \/ (t - 24 < -149 /\ e' <= -149)).
  { unfold e'. rewrite Hft. unfold t. lia. }
  set (s := ea - ed - e').
  assert (Hs : 0 <= s) by (unfold s; lia).
  set (m' := match s with
             | 0 => Zpos ma
             | Zpos _ => Z.shiftl (Zpos ma) s
             | Zneg _ => 0
             end).
  assert (Em' : m' = Zpos ma * 2 ^ s).
  { unfold m'. destruct s as [|ps|ps] eqn:Es; try lia.
    apply Z.shiftl_mul_pow2. lia. }
  set (K := - e').
  assert (HK : 0 <= K) by (unfold K; lia).
  assert (Pa : 0 < 2 ^ (ea + 149)) by (apply Z.pow_pos_nonneg; lia).
  assert (Ps : 0 < 2 ^ s) by (apply Z.pow_pos_nonneg; lia).
  assert (PK : 0 < 2 ^ K) by (apply Z.pow_pos_nonneg; lia).
  assert (Hm'K : m' < Zpos md * 2 ^ K).
  { apply (Z.mul_lt_mono_pos_r (2 ^ (ea + 149))); [exact Pa|].
    rewrite Em'.
    replace (Zpos ma * 2 ^ s * 2 ^ (ea + 149))
      with (Zpos ma * 2 ^ (ea + 149) * 2 ^ s) by lia.
    replace (Zpos md * 2 ^ K * 2 ^ (ea + 149))
      with (Zpos md * 2 ^ (ed + 149) * 2 ^ s).
    - apply Z.mul_lt_mono_pos_r; assumption.
    - rewrite <- !Z.mul_assoc, <- !Z.pow_add_r by lia.
      do 2 f_equal. unfold K, s. lia. }
  assert (Hm'0 : 0 <= m') by (rewrite Em'; lia).
  destruct (Z.div_eucl m' (Zpos md)) as [q r] eqn:Ediv.
  assert (Eq : q = m' / Zpos md) by (unfold Z.div; rewrite Ediv; reflexivity).
  assert (Hq0 : 0 <= q) by (rewrite Eq; apply Z.div_pos; lia).
  assert (HqK : q < 2 ^ K) by (rewrite Eq; apply Z.div_lt_upper_bound; lia).
  set (dq := Zdigits2 q).
  assert (Hdq0 : 0 <= dq) by apply Zdigits2_nonneg.
  assert (HdqK : dq <= K).
  { destruct (Z.eq_dec q 0) as [->|Nq]; [unfold dq; simpl; lia|].
    pose proof (Zdigits2_bounds q ltac:(lia)) as Bq. fold dq in Bq.
    assert (dq - 1 < K) by (apply pow2_lt_inv; lia). lia. }
  assert (Hfq : fexp prec32 emax32 (dq + e') = Z.max (dq + e' - 24) (-149))
    by (unfold fexp, emin, prec32, emax32; lia).
  set (e1 := fexp prec32 emax32 (dq + e')) in *.
  assert (He1 : -149 <= e1 <= -24) by (unfold K in *; lia).
  assert (Hn1 : 0 <= e1 - e').
  { destruct Hcase as [[Ht Et]|[Ht Et]]; [|lia].
    assert (Es : s = 24 - d1 + d2) by (unfold s, t in *; lia).
    assert (Hq23 : 2 ^ 23 <= q).
    { rewrite Eq. apply Z.div_le_lower_bound; [lia|].
      rewrite Em', Es.
      assert (X : 2 ^ (d1 - 1) * 2 ^ (24 - d1 + d2) = 2 ^ d2 * 2 ^ 23).
      { rewrite <- !Z.pow_add_r by lia. f_equal. lia. }
      assert (Y : 2 ^ (d1 - 1) * 2 ^ (24 - d1 + d2) <= Zpos ma * 2 ^ (24 - d1 + d2)).
      { apply Z.mul_le_mono_nonneg_r; [apply Z.pow_nonneg|]; lia. }
      assert (Z0 : Zpos md * 2 ^ 23 <= 2 ^ d2 * 2 ^ 23)
        by (apply Z.mul_le_mono_nonneg_r; lia).
      lia. }
    pose proof (Zdigits2_bounds q ltac:(lia)) as Bq. fold dq in Bq.
    assert (23 < dq) by (apply pow2_lt_inv; lia).
    lia. }
  destruct (round_aux_first_stage false q e' (new_location (Zpos md) r) Hq0)
    as (u & Hu & ->); [fold dq; fold e1; exact Hn1|].
  fold dq in Hu |- *. fold e1 in Hu |- *.
  set (n1 := e1 - e') in *.
  assert (Pn : 0 < 2 ^ n1) by (apply Z.pow_pos_nonneg; lia).
  assert (Hq1a : q / 2 ^ n1 < 2 ^ (- e1)).
  { apply Z.div_lt_upper_bound; [exact Pn|].
    rewrite <- Z.pow_add_r by lia.
    replace (n1 + - e1) with K by (unfold n1, K; lia). exact HqK. }
  assert (Hq1b : q / 2 ^ n1 < 2 ^ 24).
  { apply Z.div_lt_upper_bound; [exact Pn|].
    rewrite <- Z.pow_add_r by lia.
    destruct (Z.eq_dec q 0) as [->|Nq]; [apply Z.pow_pos_nonneg; lia|].
    pose proof (Zdigits2_bounds q ltac:(lia)) as Bq. fold dq in Bq.
    eapply Z.lt_le_trans; [apply Bq|]. apply pow2_le; unfold n1; lia. }
  assert (Hq1c : 0 <= q / 2 ^ n1) by (apply Z.div_pos; lia).
  apply finish32_unit_interval.
  - lia.
  - lia.
  - lia.
  - intros Hnorm.
    assert (En1 : n1 = dq - 24) by (unfold n1; lia).
    assert (Nq : q <> 0).
    { intros ->. unfold dq in En1. simpl in En1. lia. }
    pose proof (Zdigits2_bounds q ltac:(lia)) as Bq. fold dq in Bq.
    assert (2 ^ 23 <= q / 2 ^ n1).
    { apply Z.div_le_lower_bound; [exact Pn|].
      rewrite <- Z.pow_add_r by lia.
      replace (n1 + 23) with (dq - 1) by lia. apply Bq. }
    lia.
Qed.

Lemma finite32_not_nan (x : float32) : finite32 x = true -> is_nan x = false.
Proof. destruct x; try reflexivity. discriminate. Qed.

Lemma np_minimum_units (x y : float32) :
  finite32 x = true -> finite32 y = true ->
  np_minimum x y = if units x <=? units y then x else y.
Proof.
  intros Fx Fy. unfold np_minimum.
  rewrite (f32_le_units x y Fx Fy), (finite32_not_nan x Fx), orb_false_r.
  reflexivity.
Qed.

Lemma np_maximum_units (x y : float32) :
  finite32 x = true -> finite32 y = true ->
  np_maximum x y = if units y <=? units x then x else y.
Proof.
  intros Fx Fy. unfold np_maximum, f32_ge.
  change (SFleb y x) with (f32_le y x).
  rewrite (f32_le_units y x Fy Fx), (finite32_not_nan x Fx), orb_false_r.
  reflexivity.
Qed.

(** The minimum of an array of finite numbers is a finite number below
    every entry. *)
Lemma fold_minimum_lower (xs : list float32) (x : float32) :
  finite32 x = true ->
  Forall (fun y => finite32 y = true) xs ->
  finite32 (fold_left np_minimum xs x) = true /\
  units (fold_left np_minimum xs x) <= units x /\
  Forall (fun y => units (fold_left np_minimum xs x) <= units y) xs.
Proof.
  intros Fx H. revert x Fx.
  induction H as [|y ys Fy _ IH]; intros x Fx; simpl.
  - repeat split; [exact Fx|lia|constructor].
  - rewrite (np_minimum_units x y Fx Fy).
    destruct (Z.leb_spec (units x) (units y)) as [L|L].
    + destruct (IH x Fx) as (F & B & A).
      repeat split; [exact F|exact B|].
      constructor; [lia|exact A].
    + destruct (IH y Fy) as (F & B & A).
      repeat split; [exact F|lia|].
      constructor; [exact B|exact A].
Qed.

Lemma fold_maximum_upper (xs : list float32) (x : float32) :
  finite32 x = true ->
  Forall (fun y => finite32 y = true) xs ->
  finite32 (fold_left np_maximum xs x) = true /\
  units x <= units (fold_left np_maximum xs x) /\
  Forall (fun y => units y <= units (fold_left np_maximum xs x)) xs.
Proof.
  intros Fx H. revert x Fx.
  induction H as [|y ys Fy _ IH]; intros x Fx; simpl.
  - repeat split; [exact Fx|lia|constructor].
  - rewrite (np_maximum_units x y Fx Fy).
    destruct (Z.leb_spec (units y) (units x)) as [L|L].
    + destruct (IH x Fx) as (F & B & A).
      repeat split; [exact F|exact B|].
      constructor; [lia|exact A].
    + destruct (IH y Fy) as (F & B & A).
      repeat split; [exact F|lia|].
      constructor; [exact B|exact A].
Qed.

Lemma np_min_lower (a : ndarray) (lo : float32) :
  Forall (fun y => finite32 y = true) (data a) ->
  np_min a = Some lo ->
  finite32 lo = true /\ Forall (fun y => units lo <= units y) (data a).
Proof.
  unfold np_min. destruct (data a) as [|x xs]; [discriminate|].
  intros H E. inversion E; subst lo. clear E.
  inversion H as [|? ? Fx Fxs]; subst.
  destruct (fold_minimum_lower xs x Fx Fxs) as (F & B & A).
  split; [exact F|]. constructor; assumption.
Qed.

Lemma np_max_upper (a : ndarray) (hi : float32) :
  Forall (fun y => finite32 y = true) (data a) ->
  np_max a = Some hi ->
  finite32 hi = true /\ Forall (fun y => units y <= units hi) (data a).
Proof.
  unfold np_max. destruct (data a) as [|x xs]; [discriminate|].
  intros H E. inversion E; subst hi. clear E.
  inversion H as [|? ? Fx Fxs]; subst.
  destruct (fold_maximum_upper xs x Fx Fxs) as (F & B & A).
  split; [exact F|]. constructor; assumption.
Qed.

(** Resizing only copies entries, or fills with zeros. *)
Lemma np_resize_in (a : ndarray) (sh : list nat) (x : float32) :
  In x (data (np_resize a sh)) -> In x (data a) \/ x = f32_zero.
Proof.
  unfold np_resize.
  destruct ((List.length (data a) =? 0)%nat || (size_of_shape sh =? 0)%nat);
    simpl.
  - intros Hx. right. apply repeat_spec in Hx. exact Hx.
  - intros Hx. left. apply in_firstn in Hx. apply in_concat in Hx.
    destruct Hx as (l & Hl & Hx). apply repeat_spec in Hl. subst l. exact Hx.
Qed.

(** One entry of the normalization: for finite numbers [lo <= x <= hi]
    whose range [hi - lo] is finite and not zero, the result lies between
    0 and 1. *)
Lemma normalize_entry_unit_interval (lo hi x : float32)
    (s : bool) (m : positive) (e : Z) :
  finite32 lo = true -> finite32 hi = true -> finite32 x = true ->
  units lo <= units x <= units hi ->
  f32_sub hi lo = S754_finite s m e ->
  in_unit_interval (normalize_entry lo hi x) = true.
Proof.
  intros Fl Fh Fx [Hlx Hxh] Hd. unfold normalize_entry. rewrite Hd.
  destruct (f32_sub_units hi lo Fh Fl ltac:(lia)) as [[_ [z Hz]]|[Nd Rd]];
    [congruence|].
  rewrite Hd in Rd.
  destruct Rd as [(Bd & md & ed & Ed & Vd & Ud)|[_ Ed]]; [|discriminate].
  inversion Ed; subst s m e. clear Ed.
  destruct (f32_sub_units x lo Fx Fl Hlx) as [[_ [z Hz]]|[Na Ra]].
  - rewrite Hz. destruct z; reflexivity.
  - pose proof (rnd32_mono (units x - units lo) (units hi - units lo) Na
                  ltac:(lia)) as Hm.
    destruct Ra as [(Ba & ma & ea & Ea & Va & Ua)|[Ba _]]; [|lia].
    rewrite Ea. rewrite Ea in Va, Ua.
    apply f32_div_unit_interval; try assumption.
    cbn [units cond_Zopp] in Ua, Ud. lia.
Qed.

End RoundingFacts.

(** X11. When every value of the decibel spectrogram is a finite float32
    number and the range [max - min] of the resized array is finite and not
    zero, every one of the 128 * 128 entries of the returned array lies in
    the closed interval from 0 to 1: the float32 subtractions and the
    division of line 66 never leave it. *)
Theorem normalization_stays_between_0_and_1
    (librosa : Librosa) (file_bytes : bytes) (S_DB : ndarray)
    (lo hi : float32) (s : bool) (m : positive) (e : Z) :
  librosa_pipeline librosa file_bytes = Ok S_DB ->
  Forall (fun x => finite32 x = true) (data S_DB) ->
  np_min (np_resize S_DB [128; 128]%nat) = Some lo ->
  np_max (np_resize S_DB [128; 128]%nat) = Some hi ->
  f32_sub hi lo = S754_finite s m e ->
  exists A,
    outcome (audio_to_spectrogram librosa file_bytes) = Ok (Some A) /\
    List.length (data A) = (128 * 128)%nat /\
    Forall (fun y => in_unit_interval y = true) (data A).
Proof.
  intros Hp Hfin Hlo Hhi Hd.
  destruct (audio_to_spectrogram_of_pipeline librosa file_bytes S_DB Hp)
    as (lo' & hi' & Hlo' & Hhi' & Ha).
  rewrite Hlo in Hlo'. rewrite Hhi in Hhi'.
  inversion Hlo'; inversion Hhi'; subst lo' hi'.
  exists (normalized S_DB lo hi). split; [exact Ha|].
  rewrite normalized_data, length_map, np_resize_length.
  split; [reflexivity|].
  assert (HR : Forall (fun x => finite32 x = true)
                 (data (np_resize S_DB [128; 128]%nat))).
  { apply Forall_forall. intros x Hx.
    destruct (np_resize_in S_DB [128; 128]%nat x Hx) as [H| ->]; [|reflexivity].
    rewrite Forall_forall in Hfin. auto. }
  destruct (np_min_lower _ lo HR Hlo) as [Fl Hlower].
  destruct (np_max_upper _ hi HR Hhi) as [Fh Hupper].
  rewrite Forall_forall in HR, Hlower, Hupper.
  apply Forall_forall. intros y Hy.
  apply in_map_iff in Hy. destruct Hy as (x & <- & Hx).
  apply (normalize_entry_unit_interval lo hi x s m e); auto.
Qed.

Lemma normalization_stays_between_0_and_1_witness :
  exists A,
    outcome (audio_to_spectrogram Samples.tone_librosa Samples.wav_header) =
      Ok (Some A) /\
    List.length (data A) = (128 * 128)%nat /\
    Forall (fun y => in_unit_interval y = true) (data A).
Proof.
  refine (normalization_stays_between_0_and_1 Samples.tone_librosa
            Samples.wav_header Samples.two_level_db
            (f32_of_Z (-80)) (f32_of_Z 0) false 10485760 (-17) eq_refl _ _ _ _);
    try (vm_compute; reflexivity).
  apply Forall_forall. intros x Hx.
  apply in_concat in Hx. destruct Hx as (l & Hl & Hx).
  apply repeat_spec in Hl. subst l.
  destruct Hx as [<-|[<-|[]]]; reflexivity.
Defined.
